(** * bracky-tracky: analytics engine and Etherscan proxy

    A shallow embedding of the token-transfer analytics of the wallet tracker
    (the helpers [toMs], [parseValue], [groupTransactionsByDay],
    [generateBalanceChartFromCurrent], [calculateActiveStreak] and
    [processTransactionData] of the React component) and of the two copies of
    the serverless proxy handler, followed by the properties proved of them.

    Modelling conventions.
    - A JavaScript number is a [number]: an exact rational, [NaN], or one of
      the two infinities.  Arithmetic on finite values is exact: binary64
      rounding, overflow, underflow and the sign of zero are not modelled.
    - A JavaScript string is a [string]; each character stands for one UTF-16
      code unit below 256.
    - A record field read from the feed is an [option string]: [None] is an
      absent ([undefined]) property.
    - [Date.now()] is an explicit argument [now] (milliseconds, an integer).
    - The host's time zone is a pair of functions: [tza t] is the offset of
      local time from UTC (in milliseconds) in force at the instant [t], and
      [tzl t] is the offset by which the host turns the local time value [t]
      into an instant.  Both may change with [t], as they do where clocks
      are put forward and back; a host without such changes has the two
      constant and equal.
    - [fetch] is an explicit oracle, and the handler returns the list of URLs
      it requested next to its response. *)

From Stdlib Require Import ZArith QArith Qcanon String Ascii List Lia Lqa.
From stdpp Require Import gmap strings list fin_maps sorting pretty numbers.
From Equations Require Import Equations.

Open Scope Z_scope.

(** ** The JavaScript platform *)

Module JS.

(** *** Numbers *)

Inductive number : Set :=
| NaN
| PInf
| NInf
| Fin (q : Qc).

Definition of_Z (z : Z) : number := Fin (Qc_of_Z z).

Definition Qc_ltb (a b : Qc) : bool :=
  match Qccompare a b with Lt => true | _ => false end.

Definition Qc_eqb (a b : Qc) : bool :=
  match Qccompare a b with Eq => true | _ => false end.

Definition isNaN (a : number) : bool :=
  match a with NaN => true | _ => false end.

Definition isFinite (a : number) : bool :=
  match a with Fin _ => true | _ => false end.

Definition neg (a : number) : number :=
  match a with
  | NaN => NaN
  | PInf => NInf
  | NInf => PInf
  | Fin q => Fin (- q)%Qc
  end.

Definition add (a b : number) : number :=
  match a, b with
  | NaN, _ | _, NaN => NaN
  | PInf, NInf | NInf, PInf => NaN
  | PInf, _ | _, PInf => PInf
  | NInf, _ | _, NInf => NInf
  | Fin x, Fin y => Fin (x + y)%Qc
  end.

Definition sub (a b : number) : number := add a (neg b).

(** The sign of a number: [Lt] negative, [Eq] zero, [Gt] positive;
    [None] for [NaN]. *)
Definition sign (a : number) : option comparison :=
  match a with
  | NaN => None
  | PInf => Some Gt
  | NInf => Some Lt
  | Fin q => Some (Qccompare q 0%Qc)
  end.

Definition signed_inf (s1 s2 : comparison) : number :=
  match s1, s2 with
  | Eq, _ | _, Eq => NaN
  | Gt, Gt | Lt, Lt => PInf
  | _, _ => NInf
  end.

Definition mul (a b : number) : number :=
  match a, b with
  | NaN, _ | _, NaN => NaN
  | Fin x, Fin y => Fin (x * y)%Qc
  | _, _ =>
      match sign a, sign b with
      | Some s1, Some s2 => signed_inf s1 s2
      | _, _ => NaN
      end
  end.

(** Division; a zero divisor is taken as [+0]. *)
Definition div (a b : number) : number :=
  match a, b with
  | NaN, _ | _, NaN => NaN
  | Fin x, Fin y =>
      if Qc_eqb y 0%Qc
      then match Qccompare x 0%Qc with Eq => NaN | Gt => PInf | Lt => NInf end
      else Fin (x / y)%Qc
  | Fin _, _ => Fin 0%Qc
  | _, Fin y =>
      match sign a with
      | Some s => signed_inf s (match Qccompare y 0%Qc with Lt => Lt | _ => Gt end)
      | None => NaN
      end
  | _, _ => NaN
  end.

(** [a < b]; false as soon as one side is [NaN]. *)
Definition lt (a b : number) : bool :=
  match a, b with
  | NaN, _ | _, NaN => false
  | _, NInf => false
  | NInf, _ => true
  | PInf, _ => false
  | _, PInf => true
  | Fin x, Fin y => Qc_ltb x y
  end.

Definition gt (a b : number) : bool := lt b a.



(** [a === b] on numbers. *)
Definition eqb (a b : number) : bool :=
  match a, b with
  | PInf, PInf | NInf, NInf => true
  | Fin x, Fin y => Qc_eqb x y
  | _, _ => false
  end.

(** [Math.max(a, b)]. *)
Definition Math_max (a b : number) : number :=
  match a, b with
  | NaN, _ | _, NaN => NaN
  | _, _ => if lt a b then b else a
  end.

(** Truthiness of a number: [NaN] and zero are falsy. *)
Definition truthy (a : number) : bool :=
  match a with
  | NaN => false
  | Fin q => negb (Qc_eqb q 0%Qc)
  | _ => true
  end.

(** [a || b] on numbers. *)
Definition or_else (a b : number) : number := if truthy a then a else b.

(** [10 ** z] for an integer exponent. *)
Definition pow10 (z : Z) : Qc :=
  if 0 <=? z then Qc_of_Z (10 ^ z) else (/ Qc_of_Z (10 ^ (- z)))%Qc.

(** Truncation toward zero. *)
Definition truncate (q : Qc) : Z := Z.quot (Qnum q) (Zpos (Qden q)).

(** *** Strings *)

Definition code (c : ascii) : Z := Z.of_nat (nat_of_ascii c).

(** White space and line terminators (the ones below 256). *)
Definition is_space (c : ascii) : bool :=
  let n := code c in
  ((9 <=? n) && (n <=? 13)) || (n =? 32) || (n =? 160).

Fixpoint trimStart (s : string) : string :=
  match s with
  | String c s' => if is_space c then trimStart s' else s
  | EmptyString => EmptyString
  end.

Fixpoint trimEnd (s : string) : string :=
  match s with
  | String c s' =>
      match trimEnd s' with
      | EmptyString => if is_space c then EmptyString else String c EmptyString
      | r => String c r
      end
  | EmptyString => EmptyString
  end.

Definition trim (s : string) : string := trimEnd (trimStart s).

(** The lower-case form of a code unit below 256: of a letter [A] to [Z],
    and of an accented capital of Latin-1. *)
Definition lower_char (c : ascii) : ascii :=
  let n := code c in
  if ((65 <=? n) && (n <=? 90))
     || ((192 <=? n) && (n <=? 222) && negb (n =? 215))
  then ascii_of_nat (Z.to_nat (n + 32))
  else c.

Fixpoint toLowerCase (s : string) : string :=
  match s with
  | String c s' => String (lower_char c) (toLowerCase s')
  | EmptyString => EmptyString
  end.

Fixpoint startsWith (p s : string) : bool :=
  match p, s with
  | EmptyString, _ => true
  | String a p', String b s' => Ascii.eqb a b && startsWith p' s'
  | _, _ => false
  end.

(** [s.includes(p)]. *)
Fixpoint includes_str (p s : string) : bool :=
  startsWith p s ||
  match s with
  | String _ s' => includes_str p s'
  | EmptyString => false
  end.

(** [String(v)] and [v || ""] for a field that is a string or absent. *)
Definition String_ (v : option string) : string :=
  match v with Some s => s | None => "undefined" end.

Definition or_empty (v : option string) : string :=
  match v with Some s => s | None => "" end.

(** *** Reading numbers *)

(** The value of a character as a digit, for any radix up to 36. *)
Definition digit_value (c : ascii) : option Z :=
  let n := code c in
  if (48 <=? n) && (n <=? 57) then Some (n - 48)
  else if (97 <=? n) && (n <=? 122) then Some (n - 87)
  else if (65 <=? n) && (n <=? 90) then Some (n - 55)
  else None.

Definition digit_in (radix : Z) (c : ascii) : option Z :=
  match digit_value c with
  | Some d => if d <? radix then Some d else None
  | None => None
  end.

(** The longest prefix of digits of the radix: how many digits it has, its
    value, and what follows it. *)
Fixpoint read_digits (radix : Z) (n : nat) (acc : Z) (s : string)
  : nat * Z * string :=
  match s with
  | String c s' =>
      match digit_in radix c with
      | Some d => read_digits radix (S n) (acc * radix + d) s'
      | None => (n, acc, s)
      end
  | EmptyString => (n, acc, s)
  end.

Definition read_sign (s : string) : Z * string :=
  match s with
  | String "-" s' => (-1, s')
  | String "+" s' => (1, s')
  | _ => (1, s)
  end.

(** [parseInt(s, radix)]; [None] is the result [NaN].  A radix of [None] is
    an omitted one: base 10, or base 16 after a [0x] prefix. *)
Definition parseInt (s : string) (radix : option Z) : option Z :=
  let '(sg, s1) := read_sign (trimStart s) in
  let strip := match radix with None | Some 0 | Some 16 => true | _ => false end in
  let r0 := match radix with None | Some 0 => 10 | Some r => r end in
  if (r0 <? 2) || (36 <? r0) then None
  else
    let '(r, s2) :=
      if strip && (startsWith "0x" s1 || startsWith "0X" s1)
      then (16, substring 2 (String.length s1 - 2) s1)
      else (r0, s1) in
    match read_digits r 0 0 s2 with
    | (O, _, _) => None
    | (_, v, _) => Some (sg * v)
    end.

(** An unsigned decimal literal with optional fraction and exponent. *)
Definition read_decimal (s : string) : option Qc :=
  let '(n1, v1, r1) := read_digits 10 0 0 s in
  let '(n2, v2, r2) :=
    match r1 with
    | String "." r => read_digits 10 0 v1 r
    | _ => (O, v1, r1)
    end in
  match (n1 + n2)%nat with
  | O => None
  | _ =>
      match r2 with
      | EmptyString => Some (Qc_of_Z v2 * pow10 (- Z.of_nat n2))%Qc
      | String c r =>
          if Ascii.eqb c "e" || Ascii.eqb c "E" then
            let '(sg, r3) := read_sign r in
            match read_digits 10 0 0 r3 with
            | (S _, e, EmptyString) =>
                Some (Qc_of_Z v2 * pow10 (sg * e - Z.of_nat n2))%Qc
            | _ => None
            end
          else None
      end
  end.

Definition read_radix (radix : Z) (s : string) : number :=
  match read_digits radix 0 0 s with
  | (S _, v, EmptyString) => of_Z v
  | _ => NaN
  end.

(** [Number(s)] for a string [s]. *)
Definition Number_ (s : string) : number :=
  let t := trim s in
  match t with
  | EmptyString => of_Z 0
  | String "0" (String x r) =>
      if Ascii.eqb x "x" || Ascii.eqb x "X" then read_radix 16 r
      else if Ascii.eqb x "o" || Ascii.eqb x "O" then read_radix 8 r
      else if Ascii.eqb x "b" || Ascii.eqb x "B" then read_radix 2 r
      else match read_decimal t with Some q => Fin q | None => NaN end
  | _ =>
      let '(sg, u) := read_sign t in
      if String.eqb u "Infinity" then (if sg <? 0 then NInf else PInf)
      else match read_decimal u with
           | Some q => Fin (Qc_of_Z sg * q)%Qc
           | None => NaN
           end
  end.

(** *** Dates *)

Definition msPerDay : Z := 86400000.

Definition maxTime : Z := 8640000000000000.

(** A [Date] object holds its time value, or [None] when it is an
    [Invalid Date]. *)
Definition Date : Set := option Z.

(** [TimeClip]: the time value a number denotes. *)
Definition TimeClip (n : number) : Date :=
  match n with
  | Fin q =>
      if Qc_ltb (Qc_of_Z maxTime) q || Qc_ltb q (Qc_of_Z (- maxTime))
      then None
      else Some (truncate q)
  | _ => None
  end.

(** [new Date(n)] and [d.getTime()]. *)
Definition newDate (n : number) : Date := TimeClip n.

Definition getTime (d : Date) : number :=
  match d with Some t => of_Z t | None => NaN end.

(** The civil date of a day number (days since 1970-01-01), in the
    proleptic Gregorian calendar: year, month (1 to 12), day of month. *)
Definition civil_from_days (z : Z) : Z * Z * Z :=
  let z := z + 719468 in
  let era := z / 146097 in
  let doe := z - era * 146097 in
  let yoe := (doe - doe / 1460 + doe / 36524 - doe / 146096) / 365 in
  let doy := doe - (365 * yoe + yoe / 4 - yoe / 100) in
  let mp := (5 * doy + 2) / 153 in
  let d := doy - (153 * mp + 2) / 5 + 1 in
  let m := if mp <? 10 then mp + 3 else mp - 9 in
  let y := yoe + era * 400 + (if m <=? 2 then 1 else 0) in
  (y, m, d).

Section LocalTime.

(** The host's time zone.  [tza t] is the offset of local time from UTC,
    in milliseconds, at the instant [t] ([LocalTZA(t, true)] of the
    language definition); [tzl t] is the offset taken for the local time
    value [t] ([LocalTZA(t, false)]). *)
Variables tza tzl : Z -> Z.

(** [LocalTime(t)] and [UTC(t)]. *)
Definition LocalTime (t : Z) : Z := t + tza t.

Definition UTC (t : Z) : Z := t - tzl t.

(** The local day number of a time value. *)
Definition localDay (t : Z) : Z := LocalTime t / msPerDay.

Definition getFullYear (t : Z) : Z := fst (fst (civil_from_days (localDay t))).

(** [getMonth] counts from 0. *)
Definition getMonth (t : Z) : Z := snd (fst (civil_from_days (localDay t))) - 1.

Definition getDate (t : Z) : Z := snd (civil_from_days (localDay t)).

(** [d.setHours(h, m, s, ms)]: the local day of [d] at the given local
    time, turned back into an instant. *)
Definition setHours (h m s ms : Z) (d : Date) : Date :=
  match d with
  | Some t =>
      let time := ((h * 60 + m) * 60 + s) * 1000 + ms in
      TimeClip (of_Z (UTC (localDay t * msPerDay + time)))
  | None => None
  end.

End LocalTime.

(** *** Arrays *)

Section Sort.

Context {A : Type}.

(** [Array.prototype.sort(cmp)] for a consistent comparator: the stable
    sort.  A comparator result that is not negative (zero, positive or
    [NaN]) leaves the earlier element first. *)
Variable cmp : A -> A -> number.

Fixpoint sort_insert (x : A) (l : list A) : list A :=
  match l with
  | [] => [x]
  | y :: l' =>
      if lt (cmp y x) (of_Z 0) then y :: sort_insert x l' else x :: y :: l'
  end.

Fixpoint sort (l : list A) : list A :=
  match l with
  | [] => []
  | x :: l' => sort_insert x (sort l')
  end.

End Sort.

(** The comparator of [sort()] without an argument, on strings: the order
    of the code units. *)
Definition cmp_default (a b : string) : number :=
  match String.compare a b with
  | Lt => of_Z (-1)
  | Eq => of_Z 0
  | Gt => of_Z 1
  end.

End JS.

(** ** The analytics engine *)

Module App.

Import JS.

(** A transfer record as the feed delivers it. *)
Record Transfer : Set := {
  from : option string;
  to : option string;
  value : option string;
  tokenDecimal : option string;
  timeStamp : option string;
  functionName : option string;
  hash : option string
}.

Record TransactionData : Set := {
  day : string;
  received : number;
  sent : number;
  net : number
}.

Record BalanceChartData : Set := {
  bday : string;
  balance : number
}.

Definition HANDLEOPS_ADDRESS : string :=
  "0x7f136881b236ed9a403da7a7dd632e9d0390eb63".

Definition oneDayMs : Z := 24 * 60 * 60 * 1000.

Definition tenDaysMs : Z := 10 * 24 * 60 * 60 * 1000.

(** [for (let i = n - 1; i >= 0; i--) result.push(f(i))]. *)
Fixpoint for_down {A : Type} (n : nat) (f : Z -> A) : list A :=
  match n with
  | O => []
  | S k => f (Z.of_nat k) :: for_down k f
  end.

(** [a || b] on a string field: an absent or empty field is falsy. *)
Definition or_str (v : option string) (d : string) : string :=
  match v with
  | None | Some EmptyString => d
  | Some s => s
  end.

Definition toMs (ts : option string) : number :=
  match ts with
  | None => NaN
  | Some _ =>
      let s := trim (String_ ts) in
      let n := Number_ s in
      if isNaN n then NaN
      else if (String.length s <=? 10)%nat then mul n (of_Z 1000) else n
  end.

(** [parseInt(tx.tokenDecimal || "18", 10) || 18]. *)
Definition decimalsOf (tx : Transfer) : Z :=
  match parseInt (or_str (tokenDecimal tx) "18") (Some 10) with
  | Some d => if d =? 0 then 18 else d
  | None => 18
  end.

(** [Number(tx.value ?? 0)]. *)
Definition rawOf (tx : Transfer) : number :=
  match value tx with
  | Some s => Number_ s
  | None => of_Z 0
  end.

Definition parseValue (tx : Transfer) : number :=
  let decimals := decimalsOf tx in
  let raw := rawOf tx in
  if negb (isFinite raw) then of_Z 0
  else div raw (Fin (pow10 decimals)).

(** [(tx.to || "").toLowerCase() === address.toLowerCase()], and the same
    for [tx.from]. *)
Definition isTo (address : string) (tx : Transfer) : bool :=
  String.eqb (toLowerCase (or_empty (to tx))) (toLowerCase address).

Definition isFrom (address : string) (tx : Transfer) : bool :=
  String.eqb (toLowerCase (or_empty (from tx))) (toLowerCase address).

Section Clock.

(** The host's time zone and the value of [Date.now()]. *)
Variables tza tzl : Z -> Z.
Variable now : Z.

(** [`${date.getMonth() + 1}/${date.getDate()}`]. *)
Definition monthDayKey (date : Date) : string :=
  match date with
  | Some t => pretty (getMonth tza t + 1) +:+ "/" +:+ pretty (getDate tza t)
  | None => "NaN/NaN"
  end.

(** [`${d.getFullYear()}-${d.getMonth()}-${d.getDate()}`]. *)
Definition ymdKey (date : Date) : string :=
  match date with
  | Some t =>
      pretty (getFullYear tza t) +:+ "-" +:+ pretty (getMonth tza t)
        +:+ "-" +:+ pretty (getDate tza t)
  | None => "NaN-NaN-NaN"
  end.

(** *** groupTransactionsByDay *)

Definition emptyDay (dateKey : string) : TransactionData :=
  {| day := dateKey; received := of_Z 0; sent := of_Z 0; net := of_Z 0 |}.

Definition addReceived (v : number) (b : TransactionData) : TransactionData :=
  {| day := day b; received := add (received b) v; sent := sent b; net := net b |}.

Definition addSent (v : number) (b : TransactionData) : TransactionData :=
  {| day := day b; received := received b; sent := add (sent b) v; net := net b |}.

Definition setNet (b : TransactionData) : TransactionData :=
  {| day := day b; received := received b; sent := sent b;
     net := sub (received b) (sent b) |}.

(** The body of the [forEach]. *)
Definition groupStep (address : string)
    (dayMap : gmap string TransactionData) (tx : Transfer)
  : gmap string TransactionData :=
  let txTime := toMs (timeStamp tx) in
  if isNaN txTime then dayMap
  else if gt (sub (of_Z now) txTime) (of_Z tenDaysMs) then dayMap
  else
    let date := newDate txTime in
    let dateKey := monthDayKey date in
    let dayMap :=
      match dayMap !! dateKey with
      | Some _ => dayMap
      | None => <[dateKey := emptyDay dateKey]> dayMap
      end in
    let value := parseValue tx in
    let dayMap :=
      if isTo address tx then alter (addReceived value) dateKey dayMap
      else if isFrom address tx then alter (addSent value) dateKey dayMap
      else dayMap in
    alter setNet dateKey dayMap.

Definition groupTransactionsByDay (transfers : list Transfer)
    (address : string) : list TransactionData :=
  let dayMap := fold_left (groupStep address) transfers ∅ in
  for_down 10 (fun i =>
    let date := newDate (of_Z (now - i * 24 * 60 * 60 * 1000)) in
    let dateKey := monthDayKey date in
    match dayMap !! dateKey with
    | Some b => b
    | None => emptyDay dateKey
    end).

(** *** generateBalanceChartFromCurrent *)

Record Enriched : Set := { timeMs : number; delta : number }.

Definition enrich (user : string) (tx : Transfer) : Enriched :=
  let timeMs := toMs (timeStamp tx) in
  let to := toLowerCase (or_empty (to tx)) in
  let from := toLowerCase (or_empty (from tx)) in
  let value := parseValue tx in
  let delta :=
    if String.eqb to user then value
    else if String.eqb from user then neg value
    else of_Z 0 in
  {| timeMs := timeMs; delta := delta |}.

Definition enriched (rawTransfers : list Transfer) (userAddress : string)
  : list Enriched :=
  let user := toLowerCase userAddress in
  sort (fun a b => sub (timeMs a) (timeMs b))
    (filter (fun e => negb (isNaN (timeMs e)))
       (map (enrich user) rawTransfers)).

(** The loop that fills [suffixSum] from its last index down: the head of
    the part already built is the running sum [s]. *)
Definition suffixSums (deltas : list number) : list number :=
  fold_right (fun d acc => add (hd (of_Z 0) acc) d :: acc) [] deltas.

(** The [while (lo <= hi)] loop of [sumDeltasAfter]. *)
Equations? searchAfter (times : list number) (t : number) (lo hi ans : Z)
  : Z by wf (Z.to_nat (hi - lo + 1)) Peano.lt :=
  searchAfter times t lo hi ans with Z_le_dec lo hi => {
    | right _ := ans
    | left _ with
        (match times !! Z.to_nat ((lo + hi) / 2) with
         | Some x => gt x t
         | None => false
         end) => {
        | true := searchAfter times t lo ((lo + hi) / 2 - 1) ((lo + hi) / 2)
        | false := searchAfter times t ((lo + hi) / 2 + 1) hi ans } }.
Proof.
  all: pose proof (Z.div_mod (lo + hi) 2 ltac:(lia));
    pose proof (Z.mod_pos_bound (lo + hi) 2 ltac:(lia)); lia.
Qed.

Definition sumDeltasAfter (times suffixSum : list number) (t : number)
  : number :=
  let ans := searchAfter times t 0 (Z.of_nat (length times) - 1)
               (Z.of_nat (length times)) in
  if Z.of_nat (length times) <=? ans then of_Z 0
  else
    match suffixSum !! Z.to_nat ans with
    | Some x => or_else x (of_Z 0)
    | None => of_Z 0
    end.

Definition generateBalanceChartFromCurrent (rawTransfers : list Transfer)
    (userAddress : string) (currentBalance : number)
  : list BalanceChartData :=
  let enriched := enriched rawTransfers userAddress in
  let deltas := map delta enriched in
  let times := map timeMs enriched in
  let suffixSum := suffixSums deltas in
  for_down 10 (fun i =>
    let day := newDate (of_Z (now - i * 24 * 60 * 60 * 1000)) in
    let day := setHours tza tzl 23 59 59 999 day in
    let tEnd := getTime day in
    let dateKey := monthDayKey day in
    let after := sumDeltasAfter times suffixSum tEnd in
    let balanceAtEnd := sub currentBalance after in
    let balanceAtEnd := if isNaN balanceAtEnd then of_Z 0 else balanceAtEnd in
    let balanceAtEnd := Math_max (of_Z 0) balanceAtEnd in
    {| bday := dateKey; balance := balanceAtEnd |}).

(** *** calculateActiveStreak *)

(** [sortedDays.includes(key)]. *)
Definition Array_includes (key : string) (l : list string) : bool :=
  existsb (String.eqb key) l.

(** The [Set] filled by the [forEach]. *)
Definition activeDays (transfers : list Transfer) : gset string :=
  fold_left (fun (acc : gset string) tx =>
    let txTime := toMs (timeStamp tx) in
    if isNaN txTime then acc
    else
      let date := newDate txTime in
      {[ ymdKey date ]} ∪ acc) transfers ∅.

Definition sortedDays (transfers : list Transfer) : list string :=
  rev (sort cmp_default (elements (activeDays transfers))).

(** [new Date(currentDate.getTime() - oneDayMs)]. *)
Definition dayBefore (currentDate : Date) : Date :=
  newDate (sub (getTime currentDate) (of_Z oneDayMs)).

(** The [for] loop over [sortedDays], with [n] iterations left, at
    index [i]. *)
Fixpoint streakLoop (sortedDays : list string) (n : nat) (i : Z)
    (streak : Z) (currentDate : Date) : Z :=
  match n with
  | O => streak
  | S n' =>
      let checkDate := setHours tza tzl 0 0 0 0 currentDate in
      let checkKey := ymdKey checkDate in
      if Array_includes checkKey sortedDays then
        streakLoop sortedDays n' (i + 1) (streak + 1) (dayBefore currentDate)
      else if i =? 0 then
        let currentDate := dayBefore currentDate in
        let yesterdayKey := ymdKey currentDate in
        if Array_includes yesterdayKey sortedDays then
          streakLoop sortedDays n' (i + 1) (streak + 1) (dayBefore currentDate)
        else streak
      else streak
  end.

Definition calculateActiveStreak (transfers : list Transfer) : Z :=
  match transfers with
  | [] => 0
  | _ =>
      let sortedDays := sortedDays transfers in
      streakLoop sortedDays (length sortedDays) 0 0 (newDate (of_Z now))
  end.

(** *** processTransactionData *)

(** The summary; its numeric fields hold the values before their
    [toFixed(2)] rendering. *)
Record Stats : Set := {
  address : string;
  totalReceived : number;
  totalSent : number;
  netBalance : number;
  totalTransactions : nat;
  receiveCount : nat;
  sendCount : nat;
  currentBalance : number;
  balanceTenDaysAgo : number;
  netChange : number;
  netChangeLast10Days : number;
  buySharesTotal : number;
  buySharesCount : Z;
  activeStreak : Z;
  walletCreatedDate : string
}.

(** What the function hands to [setTxData], [setChartData], [setStats]. *)
Record Output : Set := {
  txData : list TransactionData;
  chartData : list BalanceChartData;
  stats : Stats
}.

(** [d.toLocaleDateString()], in the en-US form [M/D/YYYY]. *)
Definition toLocaleDateString (d : Date) : string :=
  match d with
  | Some t =>
      pretty (getMonth tza t + 1) +:+ "/" +:+ pretty (getDate tza t)
        +:+ "/" +:+ pretty (getFullYear tza t)
  | None => "Invalid Date"
  end.

Definition of_parse (r : option Z) : number :=
  match r with Some z => of_Z z | None => NaN end.

(** The callback of the [reduce] that finds [firstTx]. *)
Definition earlier (earliest : option Transfer) (tx : Transfer)
  : option Transfer :=
  match earliest with
  | None => Some tx
  | Some e =>
      if lt (of_parse (parseInt (String_ (timeStamp tx)) None))
            (of_parse (parseInt (String_ (timeStamp e)) None))
      then Some tx
      else Some e
  end.

Definition firstTx (transfers : list Transfer) : option Transfer :=
  fold_left earlier transfers None.

(** The variables the [forEach] of [processTransactionData] updates. *)
Record Window : Set := {
  w_balanceTenDaysAgo : number;
  w_receivedLast10Days : number;
  w_sentLast10Days : number;
  w_buySharesTotal : number;
  w_buySharesCount : Z
}.

Definition windowStep (userAddress : string) (tenDaysAgo : Z)
    (w : Window) (tx : Transfer) : Window :=
  let txTime := toMs (timeStamp tx) in
  if isNaN txTime then w
  else
    let value := parseValue tx in
    let isBuyShares :=
      includes_str "handleOps" (or_empty (functionName tx))
      && String.eqb (toLowerCase (or_empty (to tx)))
           (toLowerCase HANDLEOPS_ADDRESS) in
    let w :=
      if isBuyShares then
        {| w_balanceTenDaysAgo := w_balanceTenDaysAgo w;
           w_receivedLast10Days := w_receivedLast10Days w;
           w_sentLast10Days := w_sentLast10Days w;
           w_buySharesTotal := add (w_buySharesTotal w) value;
           w_buySharesCount := w_buySharesCount w + 1 |}
      else w in
    if isTo userAddress tx then
      if lt txTime (of_Z tenDaysAgo) then
        {| w_balanceTenDaysAgo := add (w_balanceTenDaysAgo w) value;
           w_receivedLast10Days := w_receivedLast10Days w;
           w_sentLast10Days := w_sentLast10Days w;
           w_buySharesTotal := w_buySharesTotal w;
           w_buySharesCount := w_buySharesCount w |}
      else
        {| w_balanceTenDaysAgo := w_balanceTenDaysAgo w;
           w_receivedLast10Days := add (w_receivedLast10Days w) value;
           w_sentLast10Days := w_sentLast10Days w;
           w_buySharesTotal := w_buySharesTotal w;
           w_buySharesCount := w_buySharesCount w |}
    else if isFrom userAddress tx then
      if lt txTime (of_Z tenDaysAgo) then
        {| w_balanceTenDaysAgo := sub (w_balanceTenDaysAgo w) value;
           w_receivedLast10Days := w_receivedLast10Days w;
           w_sentLast10Days := w_sentLast10Days w;
           w_buySharesTotal := w_buySharesTotal w;
           w_buySharesCount := w_buySharesCount w |}
      else
        {| w_balanceTenDaysAgo := w_balanceTenDaysAgo w;
           w_receivedLast10Days := w_receivedLast10Days w;
           w_sentLast10Days := add (w_sentLast10Days w) value;
           w_buySharesTotal := w_buySharesTotal w;
           w_buySharesCount := w_buySharesCount w |}
    else w.

Definition window0 : Window :=
  {| w_balanceTenDaysAgo := of_Z 0; w_receivedLast10Days := of_Z 0;
     w_sentLast10Days := of_Z 0; w_buySharesTotal := of_Z 0;
     w_buySharesCount := 0 |}.

(** [list.reduce((sum, tx) => sum + parseValue(tx), 0)]. *)
Definition sumValues (l : list Transfer) : number :=
  fold_left (fun sum tx => add sum (parseValue tx)) l (of_Z 0).

(** [s.slice(-4)]. *)
Definition lastFour (s : string) : string :=
  substring (String.length s - 4) 4 s.

Definition processTransactionData (transfers : list Transfer)
    (userAddress : string) : Output :=
  let tenDaysAgo := now - 10 * 24 * 60 * 60 * 1000 in
  let firstTx := firstTx transfers in
  let walletCreatedDate :=
    match firstTx with
    | Some tx =>
        toLocaleDateString
          (newDate (mul (of_parse (parseInt (String_ (timeStamp tx)) None))
                        (of_Z 1000)))
    | None => "Unknown"
    end in
  let activeStreak := calculateActiveStreak transfers in
  let w := fold_left (windowStep userAddress tenDaysAgo) transfers window0 in
  let totalReceived := sumValues (filter (isTo userAddress) transfers) in
  let totalSent := sumValues (filter (isFrom userAddress) transfers) in
  let currentBalance := sub totalReceived totalSent in
  let netChangeLast10Days :=
    sub (w_receivedLast10Days w) (w_sentLast10Days w) in
  let dailyTx := groupTransactionsByDay transfers userAddress in
  let balanceChart :=
    generateBalanceChartFromCurrent transfers userAddress currentBalance in
  let receiveCount := length (filter (isTo userAddress) transfers) in
  let sendCount := length (filter (isFrom userAddress) transfers) in
  {| txData := dailyTx;
     chartData := balanceChart;
     stats :=
       {| address := substring 0 6 userAddress +:+ "..." +:+ lastFour userAddress;
          totalReceived := totalReceived;
          totalSent := totalSent;
          netBalance := currentBalance;
          totalTransactions := length transfers;
          receiveCount := receiveCount;
          sendCount := sendCount;
          currentBalance := currentBalance;
          balanceTenDaysAgo := w_balanceTenDaysAgo w;
          netChange := netChangeLast10Days;
          netChangeLast10Days := netChangeLast10Days;
          buySharesTotal := w_buySharesTotal w;
          buySharesCount := w_buySharesCount w;
          activeStreak := activeStreak;
          walletCreatedDate := walletCreatedDate |} |}.

End Clock.

End App.

(** ** The proxy *)

(** What both copies of the handler share: the request, the response, the
    upstream service and [URLSearchParams]. *)
Module Http.

Record Env : Set := {
  ETHERSCAN_API_KEY : option string;
  ETHERSCAN_V2_BASE : option string
}.

(** [event.queryStringParameters]: the properties of the object in the
    order [URLSearchParams] enumerates them, or [None] when it is missing. *)
Record Event : Set := {
  queryStringParameters : option (list (string * string))
}.

(** A body is either the JSON rendering of [{ error: message }] or the
    text received from upstream. *)
Inductive Body : Set :=
| JsonError (message : string)
| Text (text : string).

Record Response : Set := {
  statusCode : Z;
  headers : list (string * string);
  body : Body
}.

(** What [fetch(url)] followed by [resp.text()] does: one of the two
    promises rejects, or a status and a text arrive. *)
Inductive FetchResult : Set :=
| Rejects (message : string)
| Responds (status : Z) (text : string).

Definition is_ok (status : Z) : bool := (200 <=? status) && (status <=? 299).

(** A string is falsy when it is absent or empty. *)
Definition falsy (v : option string) : bool :=
  match v with
  | None | Some EmptyString => true
  | Some _ => false
  end.

(** [qs.name] on the parameter object. *)
Fixpoint prop (name : string) (qs : list (string * string)) : option string :=
  match qs with
  | [] => None
  | (k, v) :: qs' => if String.eqb k name then Some v else prop name qs'
  end.

(** [params.set(name, value)]: the first pair of that name takes the value
    and the other pairs of that name go; without one, the pair is appended. *)
Fixpoint set (name value : string) (params : list (string * string))
  : list (string * string) :=
  match params with
  | [] => [(name, value)]
  | (k, v) :: rest =>
      if String.eqb k name
      then (name, value) :: filter (fun p => negb (String.eqb (fst p) name)) rest
      else (k, v) :: set name value rest
  end.

Definition hex_digit (n : Z) : ascii :=
  ascii_of_nat (Z.to_nat (if n <? 10 then 48 + n else 55 + n)).

Definition percent (n : Z) : string :=
  String "%" (String (hex_digit (n / 16)) (String (hex_digit (n mod 16)) "")).

(** The [application/x-www-form-urlencoded] rendering of one code unit:
    it is first encoded as UTF-8. *)
Definition encode_char (c : ascii) : string :=
  let n := JS.code c in
  if ((48 <=? n) && (n <=? 57)) || ((65 <=? n) && (n <=? 90))
     || ((97 <=? n) && (n <=? 122))
     || (n =? 42) || (n =? 45) || (n =? 46) || (n =? 95)
  then String c ""
  else if n =? 32 then "+"
  else if n <? 128 then percent n
  else percent (192 + n / 64) +:+ percent (128 + n mod 64).

Fixpoint encode (s : string) : string :=
  match s with
  | String c s' => encode_char c +:+ encode s'
  | EmptyString => ""
  end.

(** [params.toString()]. *)
Fixpoint toString (params : list (string * string)) : string :=
  match params with
  | [] => ""
  | [(k, v)] => encode k +:+ "=" +:+ encode v
  | (k, v) :: rest => encode k +:+ "=" +:+ encode v +:+ "&" +:+ toString rest
  end.

(** The [catch] branch. *)
Definition proxyError (message : string) : Response :=
  {| statusCode := 500;
     headers := [];
     body := JsonError (if String.eqb message "" then "Proxy error" else message) |}.

(** The tail both handlers share: request [targetUrl], relay the answer.
    The second component lists the URLs requested. *)
Definition forward (fetch : string -> FetchResult) (targetUrl : string)
  : Response * list string :=
  match fetch targetUrl with
  | Responds status text =>
      ({| statusCode := if is_ok status then 200 else status;
          headers := [("Content-Type", "application/json")];
          body := Text text |}, [targetUrl])
  | Rejects message => (proxyError message, [targetUrl])
  end.

End Http.

(** [netlify/functions/etherscan-proxy.js]. *)
Module Proxy.

Import Http.

Definition targetUrl (key : string) (env : Env) (qs : list (string * string))
  : string :=
  let params := set "apikey" key qs in
  let base :=
    match ETHERSCAN_V2_BASE env with
    | None | Some EmptyString => "https://api.etherscan.io/v2/api"
    | Some b => b
    end in
  base +:+ "?" +:+ toString params.

Definition handler (env : Env) (fetch : string -> FetchResult) (event : Event)
  : Response * list string :=
  match ETHERSCAN_API_KEY env with
  | None | Some EmptyString =>
      ({| statusCode := 500; headers := [];
          body := JsonError "Missing ETHERSCAN_API_KEY on server" |}, [])
  | Some ETHERSCAN_KEY =>
      let qs := match queryStringParameters event with
                | Some q => q
                | None => []
                end in
      if falsy (prop "module" qs) || falsy (prop "action" qs) then
        ({| statusCode := 400; headers := [];
            body := JsonError
              "Missing required query parameters: module and action" |}, [])
      else forward fetch (targetUrl ETHERSCAN_KEY env qs)
  end.

End Proxy.

(** The second copy of the handler, the one without the parameter check. *)
Module ProxyCopy.

Import Http.

Definition targetUrl (key : string) (qs : list (string * string)) : string :=
  let params := set "apikey" key qs in
  "https://api.etherscan.io/v2/api?" +:+ toString params.

Definition handler (env : Env) (fetch : string -> FetchResult) (event : Event)
  : Response * list string :=
  match ETHERSCAN_API_KEY env with
  | None | Some EmptyString =>
      ({| statusCode := 500; headers := [];
          body := JsonError "Server missing ETHERSCAN_API_KEY" |}, [])
  | Some ETHERSCAN_KEY =>
      let qs := match queryStringParameters event with
                | Some q => q
                | None => []
                end in
      forward fetch (targetUrl ETHERSCAN_KEY qs)
  end.

End ProxyCopy.

(** * Specification

    The notions the properties are stated with. *)

Module Spec.

Import JS App Http.

(** The value of a finite number (and 0 for the others). *)
Definition val (a : number) : Qc :=
  match a with Fin q => q | _ => 0%Qc end.

Definition finite (a : number) : Prop := exists q, a = Fin q.

(** Exact sums. *)
Definition sumQc (l : list Qc) : Qc := fold_right Qcplus 0%Qc l.

Section ByKey.

(** Sorting records by a numeric key with the comparator
    [key a - key b], when no key is [NaN]. *)
Context {A : Type} (key : A -> number).

Definition byKey (a b : A) : number := sub (key a) (key b).

Definition keyLe (a b : A) : Prop := lt (key b) (key a) = false.

Definition keyed (a : A) : Prop := isNaN (key a) = false.

End ByKey.

(** The signed amount a transfer adds to the subject's balance. *)
Definition signedDelta (userAddress : string) (tx : Transfer) : Qc :=
  if isTo userAddress tx then val (parseValue tx)
  else if isFrom userAddress tx then (- val (parseValue tx))%Qc
  else 0%Qc.

(** Is the transfer's time valid and later than [t]? *)
Definition isAfter (t : number) (tx : Transfer) : bool :=
  negb (isNaN (toMs (timeStamp tx))) && gt (toMs (timeStamp tx)) t.

(** The sum the reconstruction needs: the signed amounts of the transfers
    with a valid time later than [t]. *)
Definition deltaSumAfter (rawTransfers : list Transfer) (userAddress : string)
    (t : number) : Qc :=
  sumQc (map (signedDelta userAddress) (filter (isAfter t) rawTransfers)).

(** A clock value [Date.now()] can return: not before 1970, and a day away
    from the end of the range of time values. *)
Definition validNow (now : Z) : Prop := 0 <= now <= maxTime - msPerDay.

(** A host whose clocks are never changed: one offset at every instant. *)
Definition fixedOffset (c : Z) : Z -> Z := fun _ => c.

(** The last millisecond of the local day of [t], and its first, as the
    instants [setHours(23, 59, 59, 999)] and [setHours(0, 0, 0, 0)]
    compute them. *)
Definition endOfDay (tza tzl : Z -> Z) (t : Z) : Z :=
  UTC tzl (localDay tza t * msPerDay + 86399999).

Definition startOfDay (tza tzl : Z -> Z) (t : Z) : Z :=
  UTC tzl (localDay tza t * msPerDay).

(** Midnight of the day of [d] is an instant of that day: what local time
    guarantees of [setHours(0, 0, 0, 0)] on a host. *)
Definition midnightInDay (tza tzl : Z -> Z) (d : Date) : Prop :=
  ymdKey tza (setHours tza tzl 0 0 0 0 d) = ymdKey tza d.

(** No change of the clocks in the window: the offset at each of the ten
    instants [now - i * 24h] is the one at [now]. *)
Definition steadyWindow (tza : Z -> Z) (now : Z) : Prop :=
  forall i, 0 <= i <= 9 -> tza (now - i * msPerDay) = tza now.

(** The label [M/D] of a civil date, and the key [Y-(M-1)-D]. *)
Definition mdLabel (c : Z * Z * Z) : string :=
  let '(_, m, d) := c in pretty m +:+ "/" +:+ pretty d.

Definition ymdLabel (c : Z * Z * Z) : string :=
  let '(y, m, d) := c in pretty y +:+ "-" +:+ pretty (m - 1) +:+ "-" +:+ pretty d.



(** The day whose end the chart evaluates, [i] days before [now]. *)
Definition chartDay (tza tzl : Z -> Z) (now i : Z) : Date :=
  setHours tza tzl 23 59 59 999 (newDate (of_Z (now - i * 24 * 60 * 60 * 1000))).

Section Window.

Variables (tza : Z -> Z) (now : Z) (address : string).

(** The transfers the loop body does not skip, and the label it files
    them under. *)
Definition inWindow (tx : Transfer) : bool :=
  negb (isNaN (toMs (timeStamp tx)))
  && negb (gt (sub (of_Z now) (toMs (timeStamp tx))) (of_Z tenDaysMs)).

Definition keyOf (tx : Transfer) : string :=
  monthDayKey tza (newDate (toMs (timeStamp tx))).

Definition onDay (key : string) (tx : Transfer) : bool :=
  inWindow tx && String.eqb (keyOf tx) key.

Definition valueSum (l : list Transfer) : Qc :=
  sumQc (map (fun tx => val (parseValue tx)) l).

(** What the subject received and sent under a label: a transfer both to
    and from the subject counts as received. *)
Definition receivedOn (key : string) (l : list Transfer) : Qc :=
  valueSum (filter (fun tx => onDay key tx && isTo address tx) l).

Definition sentOn (key : string) (l : list Transfer) : Qc :=
  valueSum
    (filter (fun tx => onDay key tx && negb (isTo address tx) && isFrom address tx) l).

Definition bucketOf (key : string) (l : list Transfer) : TransactionData :=
  {| day := key;
     received := Fin (receivedOn key l);
     sent := Fin (sentOn key l);
     net := Fin (receivedOn key l - sentOn key l) |}.

End Window.

Section Streak.

Variables tza tzl : Z -> Z.

(** The day key of a transfer, and whether its time is valid. *)
Definition validTime (tx : Transfer) : bool := negb (isNaN (toMs (timeStamp tx))).

Definition dayKeyOf (tx : Transfer) : string :=
  ymdKey tza (newDate (toMs (timeStamp tx))).

(** Was there a transfer on the calendar day of [d]? *)
Definition activeOn (transfers : list Transfer) (d : Date) : bool :=
  existsb (fun tx => validTime tx && String.eqb (dayKeyOf tx) (ymdKey tza d)) transfers.

(** The loop, once the first iteration is over: [act] answers
    [sortedDays.includes]. *)
Fixpoint walk (act : string -> bool) (n : nat) (streak : Z) (d : Date) : Z :=
  match n with
  | O => streak
  | S n' =>
      if act (ymdKey tza (setHours tza tzl 0 0 0 0 d))
      then walk act n' (streak + 1) (dayBefore d)
      else streak
  end.

End Streak.

(** The day number of a civil date. *)
Definition days_from_civil (c : Z * Z * Z) : Z :=
  let '(y, m, d) := c in
  let y := if m <=? 2 then y - 1 else y in
  let era := y / 400 in
  let yoe := y - era * 400 in
  let mp := if 2 <? m then m - 3 else m + 9 in
  let doy := (153 * mp + 2) / 5 + d - 1 in
  let doe := yoe * 365 + yoe / 4 - yoe / 100 + doy in
  era * 146097 + doe - 719468.

(** One day of a 400-year era, checked: the year of the era is in range,
    the month and the day of the month too, and the way back gives the
    day again. *)
Definition era_day_ok (doe : Z) : bool :=
  let yoe := (doe - doe / 1460 + doe / 36524 - doe / 146096) / 365 in
  let doy := doe - (365 * yoe + yoe / 4 - yoe / 100) in
  let mp := (5 * doy + 2) / 153 in
  let d := doy - (153 * mp + 2) / 5 + 1 in
  let m := if mp <? 10 then mp + 3 else mp - 9 in
  (0 <=? yoe) && (yoe <=? 399) && (1 <=? m) && (m <=? 12) && (1 <=? d) && (d <=? 31)
  && ((if 2 <? m then m - 3 else m + 9) =? mp)
  && (yoe * 365 + yoe / 4 - yoe / 100 + ((153 * mp + 2) / 5 + d - 1) =? doe).

(** [era_day_ok] on [n] consecutive days from [z] on. *)
Fixpoint era_days_ok (n : nat) (z : Z) : bool :=
  match n with
  | O => true
  | S k => era_day_ok z && era_days_ok k (z + 1)
  end.

(** Strings without the character [-]. *)
Fixpoint dashfree (s : string) : bool :=
  match s with
  | EmptyString => true
  | String c s' => negb (Ascii.eqb c "-") && dashfree s'
  end.

(** Was there a transfer on the day [j] days before the clock?  And the
    key of that day. *)
Definition activeAgo (tza : Z -> Z) (now : Z) (transfers : list Transfer) (j : Z)
  : bool :=
  activeOn tza transfers (Some (now - j * msPerDay)).

Definition keyAgo (tza : Z -> Z) (now j : Z) : string :=
  ymdLabel (civil_from_days (localDay tza now - j)).

Section Summary.

Variables (now : Z) (userAddress : string).

(** A transfer the subject sends to itself. *)
Definition selfTransfer (tx : Transfer) : bool :=
  isTo userAddress tx && isFrom userAddress tx.

Definition windowOf (transfers : list Transfer) : Window :=
  fold_left (windowStep userAddress (now - 10 * 24 * 60 * 60 * 1000))
    transfers window0.

Definition settled (w : Window) (total : Qc) : Prop :=
  exists b r s,
    w_balanceTenDaysAgo w = Fin b /\ w_receivedLast10Days w = Fin r
    /\ w_sentLast10Days w = Fin s /\ (b + (r - s) = total)%Qc.

(** The timestamp as [firstTx] reads it. *)
Definition stamp (tx : Transfer) : number :=
  of_parse (parseInt (String_ (timeStamp tx)) None).

Definition stamped (tx : Transfer) : Prop := isNaN (stamp tx) = false.

End Summary.

(** The parameter object of a request: [event.queryStringParameters || {}]. *)
Definition queryOf (event : Event) : list (string * string) :=
  match queryStringParameters event with
  | Some qs => qs
  | None => []
  end.

(** The request has no parameter of that name, or an empty one: what the
    handler tests with [!qs.name]. *)
Definition lacks (name : string) (event : Event) : Prop :=
  falsy (prop name (queryOf event)) = true.

(** The values a parameter list gives for a name. *)
Definition valuesOf (name : string) (params : list (string * string)) : list string :=
  map snd (filter (fun p => String.eqb (fst p) name) params).

(** Two parameter objects that differ at most in the value of [apikey]. *)
Definition sameButApikey (qs qs' : list (string * string)) : Prop :=
  Forall2 (fun p q => fst p = fst q /\ (fst p <> "apikey" -> snd p = snd q)) qs qs'.

Definition sameRequest (e e' : Event) : Prop :=
  match queryStringParameters e, queryStringParameters e' with
  | Some qs, Some qs' => sameButApikey qs qs'
  | None, None => True
  | _, _ => False
  end.

End Spec.

(** * Sample data

    A wallet, a clock (2023-11-14 22:13:20 UTC), two hosts and a few
    transfers, used to evaluate the functions. *)

Module Samples.

Import JS App Http.

Definition subject : string := "0xaaaaaaaaaaaaaaaaaaaaaaaaaaaaaaaaaaaaaaaa".

Definition other : string := "0xbbbbbbbbbbbbbbbbbbbbbbbbbbbbbbbbbbbbbbbb".

Definition clock : Z := 1700000000000.

(** A host on UTC. *)
Definition utc : Z -> Z := Spec.fixedOffset 0.

(** A host in New York, for the years 2023 and 2024: four hours behind UTC
    from the second Sunday of March, 7:00 UTC, to the first Sunday of
    November, 6:00 UTC, and five hours behind otherwise. *)
Definition hour : Z := 60 * 60 * 1000.

Definition newYork (t : Z) : Z :=
  if ((1678604400000 <=? t) && (t <? 1699164000000))
     || ((1710054000000 <=? t) && (t <? 1730613600000))
  then - 4 * hour
  else - 5 * hour.

(** The same host asked about a local time value.  A local time that the
    change of the clocks skips (2:00 to 3:00 in March) or repeats (1:00 to
    2:00 in November) is read with the offset in force before the change. *)
Definition newYorkLocal (t : Z) : Z :=
  if ((1678604400000 - 4 * hour <=? t) && (t <? 1699164000000 - 4 * hour))
     || ((1710054000000 - 4 * hour <=? t) && (t <? 1730613600000 - 4 * hour))
  then - 4 * hour
  else - 5 * hour.

(** 5 November 2023, 23:30 in New York (4:30 UTC on the 6th), the day the
    clocks went back; and 11 March 2024, 0:30 in New York (4:30 UTC), the
    day after they went forward. *)
Definition autumnNight : Z := 1699245000000.

Definition springNight : Z := 1710131400000.

Definition transfer (from to value tokenDecimal timeStamp : string) : Transfer :=
  {| from := Some from; to := Some to; value := Some value;
     tokenDecimal := Some tokenDecimal; timeStamp := Some timeStamp;
     functionName := None; hash := None |}.

(** 100 tokens received five days before the clock. *)
Definition received100 : Transfer :=
  transfer other subject "100000000000000000000" "18" "1699568000".

(** 40 tokens sent the day before the clock. *)
Definition sent40 : Transfer :=
  transfer subject other "40000000000000000000" "18" "1699913600".

(** 1 token received on the day of the clock. *)
Definition receivedToday : Transfer :=
  transfer other subject "1000000000000000000" "18" "1699999000".

(** 1 token the subject sends to itself. *)
Definition sentToSelf : Transfer :=
  transfer subject subject "1000000000000000000" "18" "1699990000".

(** A transfer whose timestamp is in milliseconds. *)
Definition inMilliseconds : Transfer :=
  transfer other subject "1000000000000000000" "18" "1700000000000".

(** 1 token received on 5 November 2023, 10:00 in New York. *)
Definition receivedNov5 : Transfer :=
  transfer other subject "1000000000000000000" "18" "1699196400".

(** 1 token received on 9 March 2024, 10:00 in New York; on 10 March,
    11:00; and on 11 March, 0:10. *)
Definition receivedMar9 : Transfer :=
  transfer other subject "1000000000000000000" "18" "1709996400".

Definition receivedMar10 : Transfer :=
  transfer other subject "1000000000000000000" "18" "1710082800".

Definition receivedMar11 : Transfer :=
  transfer other subject "1000000000000000000" "18" "1710130200".

(** 5 units of a token without decimal places. *)
Definition wholeUnits : Transfer :=
  transfer other subject "5" "0" "1699999000".

Definition configured : Env :=
  {| ETHERSCAN_API_KEY := Some "SERVERKEY"; ETHERSCAN_V2_BASE := None |}.

Definition unconfigured : Env :=
  {| ETHERSCAN_API_KEY := None; ETHERSCAN_V2_BASE := None |}.

Definition upstream (url : string) : FetchResult := Responds 200 "{}".

Definition request (qs : list (string * string)) : Event :=
  {| queryStringParameters := Some qs |}.

(** A finite number as a fraction in lowest terms. *)
Definition fraction (a : number) : option Q :=
  match a with
  | Fin q => Some (this q)
  | _ => None
  end.

End Samples.

(** * Properties *)

(** ** The model on sample inputs *)

Module Checks.

Import JS App Http Spec Samples.

Example Number_seconds : fraction (Number_ "1699568000") = Some (1699568000 # 1).
Proof. vm_compute. reflexivity. Qed.

Example Number_fraction : fraction (Number_ " 12.50 ") = Some (25 # 2).
Proof. vm_compute. reflexivity. Qed.

Example Number_exponent : fraction (Number_ "1e3") = Some (1000 # 1).
Proof. vm_compute. reflexivity. Qed.

Example Number_hex : fraction (Number_ "0x1F") = Some (31 # 1).
Proof. vm_compute. reflexivity. Qed.

Example Number_empty : fraction (Number_ "") = Some (0 # 1).
Proof. vm_compute. reflexivity. Qed.

Example Number_text : Number_ "12px" = NaN.
Proof. vm_compute. reflexivity. Qed.

Example Number_infinity : Number_ "-Infinity" = NInf.
Proof. vm_compute. reflexivity. Qed.

Example parseInt_prefix : parseInt " -18px" (Some 10) = Some (-18).
Proof. vm_compute. reflexivity. Qed.

Example parseInt_hex : parseInt "0x10" None = Some 16.
Proof. vm_compute. reflexivity. Qed.

Example parseInt_undefined : parseInt (String_ None) None = None.
Proof. vm_compute. reflexivity. Qed.

Example toMs_seconds : fraction (toMs (Some "1699568000")) = Some (1699568000000 # 1).
Proof. vm_compute. reflexivity. Qed.

Example toMs_milliseconds :
  fraction (toMs (Some "1700000000000")) = Some (1700000000000 # 1).
Proof. vm_compute. reflexivity. Qed.

Example toMs_absent : toMs None = NaN.
Proof. reflexivity. Qed.

Example civil_epoch : civil_from_days 0 = (1970, 1, 1).
Proof. reflexivity. Qed.

Example civil_leap_day : civil_from_days 11016 = (2000, 2, 29).
Proof. reflexivity. Qed.

Example civil_clock : civil_from_days (localDay utc clock) = (2023, 11, 14).
Proof. reflexivity. Qed.

Example civil_first_day : civil_from_days (- 100000000) = (-271821, 4, 20).
Proof. reflexivity. Qed.

Example keys_of_clock :
  monthDayKey utc (newDate (of_Z clock)) = "11/14"
  /\ ymdKey utc (newDate (of_Z clock)) = "2023-10-14"
  /\ ymdKey (fixedOffset (- 86400000)) (newDate (of_Z clock)) = "2023-10-13".
Proof. repeat split; vm_compute; reflexivity. Qed.

(** New York around the two changes of the clocks.  The autumn night and
    the instant 24 hours before it are on the same local day; the spring
    night and the instant 24 hours before it are two local days apart. *)
Example keys_of_autumn :
  ymdKey newYork (Some autumnNight) = "2023-10-5"
  /\ ymdKey newYork (Some (autumnNight - msPerDay)) = "2023-10-5"
  /\ ymdKey newYork (Some (autumnNight - 2 * msPerDay)) = "2023-10-4".
Proof. repeat split; vm_compute; reflexivity. Qed.

Example keys_of_spring :
  ymdKey newYork (Some springNight) = "2024-2-11"
  /\ ymdKey newYork (Some (springNight - msPerDay)) = "2024-2-9".
Proof. repeat split; vm_compute; reflexivity. Qed.

(** [setHours] at a local time the clocks skip, and at one they repeat:
    2:30 on 10 March 2024 becomes 3:30 (7:30 UTC), and 1:30 on 5 November
    2023 is the first of the two (5:30 UTC). *)
Example setHours_skipped :
  setHours newYork newYorkLocal 2 30 0 0 (Some 1710082800000) = Some 1710055800000.
Proof. vm_compute. reflexivity. Qed.

Example setHours_repeated :
  setHours newYork newYorkLocal 1 30 0 0 (Some autumnNight) = Some 1699162200000.
Proof. vm_compute. reflexivity. Qed.

Example date_out_of_range : newDate (Number_ "99999999999999999") = None.
Proof. vm_compute. reflexivity. Qed.

(** The scenario of the specification: 100 received five days ago, 40 sent
    yesterday. *)
Example scenario_buckets :
  map (fun b => (day b, fraction (received b), fraction (sent b), fraction (net b)))
    (groupTransactionsByDay utc clock [received100; sent40] subject)
  = [("11/5", Some 0, Some 0, Some 0); ("11/6", Some 0, Some 0, Some 0);
     ("11/7", Some 0, Some 0, Some 0); ("11/8", Some 0, Some 0, Some 0);
     ("11/9", Some (100 # 1), Some 0, Some (100 # 1));
     ("11/10", Some 0, Some 0, Some 0); ("11/11", Some 0, Some 0, Some 0);
     ("11/12", Some 0, Some 0, Some 0);
     ("11/13", Some 0, Some (40 # 1), Some (-40 # 1));
     ("11/14", Some 0, Some 0, Some 0)]%Q.
Proof. vm_compute. reflexivity. Qed.

Example scenario_chart :
  map (fun p => (bday p, fraction (balance p)))
    (chartData (processTransactionData utc utc clock [received100; sent40] subject))
  = [("11/5", Some 0); ("11/6", Some 0); ("11/7", Some 0); ("11/8", Some 0);
     ("11/9", Some (100 # 1)); ("11/10", Some (100 # 1)); ("11/11", Some (100 # 1));
     ("11/12", Some (100 # 1)); ("11/13", Some (60 # 1)); ("11/14", Some (60 # 1))]%Q.
Proof. vm_compute. reflexivity. Qed.

Example scenario_stats :
  let s := stats (processTransactionData utc utc clock [received100; sent40] subject) in
  (address s, fraction (totalReceived s), fraction (totalSent s),
   fraction (currentBalance s), fraction (balanceTenDaysAgo s),
   fraction (netChangeLast10Days s), totalTransactions s, receiveCount s, sendCount s,
   activeStreak s, walletCreatedDate s)
  = ("0xaaaa...aaaa", Some (100 # 1), Some (40 # 1), Some (60 # 1), Some 0,
     Some (60 # 1), 2%nat, 1%nat, 1%nat, 1%Z, "11/9/2023")%Q.
Proof. vm_compute. reflexivity. Qed.

Example forwarded_url :
  snd (Proxy.handler configured upstream
         (request [("module", "account"); ("action", "tokentx"); ("sort", "a b")]))
  = ["https://api.etherscan.io/v2/api?module=account&action=tokentx&sort=a+b&apikey=SERVERKEY"].
Proof. reflexivity. Qed.

End Checks.

(** ** Facts about numbers and sorting *)

Module NumberFacts.

Import JS Spec.

Lemma Qclt_irrefl (x : Qc) : ~ (x < x)%Qc.
Proof. intros H. apply Qclt_not_le in H. apply H, Qcle_refl. Qed.

Lemma Qc_ltb_spec (x y : Qc) : reflect (x < y)%Qc (Qc_ltb x y).
Proof.
  unfold Qc_ltb. destruct (Qccompare x y) eqn:E; constructor.
  - apply Qceq_alt in E. subst. apply Qclt_irrefl.
  - now apply Qclt_alt.
  - apply Qcgt_alt in E. intros H. apply (Qclt_irrefl x).
    eapply Qclt_trans; [exact H | exact E].
Qed.

Lemma Qc_eqb_spec (x y : Qc) : reflect (x = y) (Qc_eqb x y).
Proof.
  unfold Qc_eqb. destruct (Qccompare x y) eqn:E; constructor.
  - now apply Qceq_alt.
  - intros ->. apply Qclt_alt in E. now apply Qclt_irrefl in E.
  - intros ->. apply Qcgt_alt in E. now apply Qclt_irrefl in E.
Qed.

Lemma Qc_sub_neg (x y : Qc) : (x + - y < 0)%Qc <-> (x < y)%Qc.
Proof.
  unfold Qclt, Qcplus, Qcopp, Q2Qc; simpl. rewrite !Qred_correct.
  split; intros; lra.
Qed.

Lemma of_Z_0 : of_Z 0 = Fin 0%Qc.
Proof. unfold of_Z. f_equal. apply Qc_is_canon. reflexivity. Qed.

Lemma finite_val a : finite a -> a = Fin (val a).
Proof. now intros [q ->]. Qed.

Lemma finite_Fin q : finite (Fin q).
Proof. now exists q. Qed.

Lemma finite_of_Z z : finite (of_Z z).
Proof. now eexists. Qed.

Lemma finite_add a b : finite a -> finite b -> finite (add a b).
Proof. intros [x ->] [y ->]. now eexists. Qed.

Lemma finite_neg a : finite a -> finite (neg a).
Proof. intros [x ->]. now eexists. Qed.

Lemma finite_sub a b : finite a -> finite b -> finite (sub a b).
Proof. intros. now apply finite_add, finite_neg. Qed.

Lemma val_add a b : finite a -> finite b -> val (add a b) = (val a + val b)%Qc.
Proof. now intros [x ->] [y ->]. Qed.

Lemma val_neg a : finite a -> val (neg a) = (- val a)%Qc.
Proof. now intros [x ->]. Qed.

Lemma val_sub a b : finite a -> finite b -> val (sub a b) = (val a - val b)%Qc.
Proof. now intros [x ->] [y ->]. Qed.

Lemma val_of_Z_0 : val (of_Z 0) = 0%Qc.
Proof. now rewrite of_Z_0. Qed.

(** [a || 0] is [a] for every finite [a]. *)
Lemma or_else_0 a : finite a -> or_else a (of_Z 0) = a.
Proof.
  intros [q ->]. unfold or_else; simpl.
  destruct (Qc_eqb_spec q 0%Qc) as [-> | _]; simpl; [apply of_Z_0 | reflexivity].
Qed.

(** On numbers other than [NaN], [<] is a strict total order. *)

Lemma lt_irrefl a : lt a a = false.
Proof.
  destruct a; simpl; try reflexivity.
  destruct (Qc_ltb_spec q q) as [H | _]; [| reflexivity].
  now apply Qclt_irrefl in H.
Qed.

Lemma lt_asym a b : lt a b = true -> lt b a = false.
Proof.
  destruct a, b; simpl; try congruence.
  destruct (Qc_ltb_spec q q0), (Qc_ltb_spec q0 q); try congruence.
  exfalso. apply (Qclt_irrefl q). eapply Qclt_trans; eassumption.
Qed.

(** [b <= c] (as [c < b] being false) carries [a < b] to [a < c]. *)
Lemma lt_le_trans a b c :
  isNaN c = false -> lt a b = true -> lt c b = false -> lt a c = true.
Proof.
  destruct a, b, c; simpl; try congruence.
  destruct (Qc_ltb_spec q q0), (Qc_ltb_spec q1 q0), (Qc_ltb_spec q q1);
    try congruence.
  exfalso. apply n0. eapply Qclt_le_trans; [eassumption |].
  now apply Qcnot_lt_le.
Qed.

Lemma le_trans a b c :
  isNaN b = false -> lt b a = false -> lt c b = false -> lt c a = false.
Proof.
  destruct a, b, c; simpl; try congruence.
  destruct (Qc_ltb_spec q0 q), (Qc_ltb_spec q1 q0), (Qc_ltb_spec q1 q);
    try congruence.
  exfalso. apply n0. eapply Qclt_le_trans; [eassumption |].
  now apply Qcnot_lt_le.
Qed.

(** The comparator [a - b] is negative exactly when [a < b]. *)
Lemma lt_sub_0 a b :
  isNaN a = false -> isNaN b = false -> lt (sub a b) (of_Z 0) = lt a b.
Proof.
  rewrite of_Z_0.
  destruct a, b; simpl; try congruence.
  intros _ _.
  destruct (Qc_ltb_spec (q + - q0) 0), (Qc_ltb_spec q q0); try reflexivity.
  - exfalso. now apply n, Qc_sub_neg.
  - exfalso. now apply n, Qc_sub_neg.
Qed.



(** Subtracting zero changes nothing. *)
Lemma sub_0_r a : sub a (of_Z 0) = a.
Proof.
  rewrite of_Z_0. destruct a; simpl; try reflexivity.
  f_equal. ring.
Qed.

End NumberFacts.

Module SortFacts.

Import JS NumberFacts Spec.

Section Generic.

Context {A : Type} (cmp : A -> A -> number).

Lemma sort_insert_perm x l : sort_insert cmp x l ≡ₚ x :: l.
Proof.
  induction l as [| y l IH]; simpl; [reflexivity |].
  destruct (lt (cmp y x) (of_Z 0)); [| reflexivity].
  rewrite IH. apply Permutation_swap.
Qed.

Lemma sort_perm l : sort cmp l ≡ₚ l.
Proof.
  induction l as [| x l IH]; simpl; [reflexivity |].
  now rewrite sort_insert_perm, IH.
Qed.

End Generic.

Section ByKey.

Context {A : Type} (key : A -> number).

Lemma sort_insert_sorted x l :
  keyed key x -> Forall (keyed key) l ->
  StronglySorted (keyLe key) l -> StronglySorted (keyLe key) (sort_insert (byKey key) x l).
Proof.
  intros Hx Hl Hs. induction Hs as [| y l Hs IH Hy]; simpl.
  - repeat constructor.
  - apply Forall_cons_1 in Hl as [Hky Hl]. unfold byKey at 1.
    rewrite lt_sub_0 by assumption.
    destruct (lt (key y) (key x)) eqn:E.
    + constructor; [now apply IH |].
      rewrite sort_insert_perm. constructor; [| assumption].
      now apply lt_asym.
    + constructor; [now constructor |].
      constructor; [exact E |].
      eapply List.Forall_impl; [| exact Hy]. intros z Hz.
      unfold keyLe in *. now apply (le_trans _ (key y)).
Qed.

Lemma sort_sorted l : Forall (keyed key) l -> StronglySorted (keyLe key) (sort (byKey key) l).
Proof.
  induction l as [| x l IH]; simpl; intros H; [constructor |].
  apply Forall_cons_1 in H as [Hx Hl].
  apply sort_insert_sorted; [assumption | | now apply IH].
  now rewrite sort_perm.
Qed.

(** In a sorted list the records whose key exceeds [t] form a suffix. *)
Lemma sorted_split (t : number) l :
  Forall (keyed key) l -> StronglySorted (keyLe key) l ->
  l = filter (fun a => negb (gt (key a) t)) l
        ++ filter (fun a => gt (key a) t) l.
Proof.
  intros Hk Hs. induction Hs as [| x l Hs IH Hx]; [reflexivity |].
  apply Forall_cons_1 in Hk as [Hkx Hk].
  rewrite !filter_cons. destruct (gt (key x) t) eqn:E; simpl.
  - assert (Hall : Forall (fun a => gt (key a) t) l).
    { rewrite Forall_forall in Hx, Hk. apply Forall_forall. intros z Hz.
      apply Is_true_true. unfold gt in *.
      apply (lt_le_trans _ (key x)); [now apply Hk | exact E | now apply Hx]. }
    assert (Hnone : filter (fun a => negb (gt (key a) t)) l = []).
    { clear -Hall. induction Hall as [| z l Hz _ IHl]; [reflexivity |].
      rewrite filter_cons. destruct (gt (key z) t); simpl in *; [exact IHl | tauto]. }
    assert (Hsame : filter (fun a => gt (key a) t) l = l).
    { clear -Hall. induction Hall as [| z l Hz _ IHl]; [reflexivity |].
      rewrite filter_cons. destruct (gt (key z) t); simpl in *; [now f_equal | tauto]. }
    rewrite Hnone, Hsame. reflexivity.
  - simpl. f_equal. now apply IH.
Qed.

End ByKey.

Lemma sorted_keys {A} (key : A -> number) (l : list A) :
  StronglySorted (keyLe key) l ->
  StronglySorted (fun a b => lt b a = false) (map key l).
Proof.
  induction 1 as [| a l Hs IH Ha]; simpl; constructor; [exact IH |].
  apply Forall_forall. intros x Hx. apply in_map_iff in Hx as (b & <- & Hb).
  rewrite Forall_forall in Ha. now apply Ha.
Qed.

End SortFacts.

(** ** The balance reconstruction *)

Module Reconstructor.

Import JS App NumberFacts SortFacts Spec.

Lemma sumQc_app l1 l2 : sumQc (l1 ++ l2) = (sumQc l1 + sumQc l2)%Qc.
Proof. induction l1 as [| x l1 IH]; simpl; [ring | rewrite IH; ring]. Qed.

Lemma sumQc_perm l1 l2 : l1 ≡ₚ l2 -> sumQc l1 = sumQc l2.
Proof.
  induction 1 as [| x l1 l2 _ IH | x y l | l1 l2 l3 _ IH1 _ IH2]; simpl.
  - reflexivity.
  - now rewrite IH.
  - ring.
  - now rewrite IH1.
Qed.

Lemma suffixSums_cons d l :
  suffixSums (d :: l) = add (hd (of_Z 0) (suffixSums l)) d :: suffixSums l.
Proof. reflexivity. Qed.

Lemma suffixSums_length l : length (suffixSums l) = length l.
Proof.
  induction l as [| d l IH]; [reflexivity |].
  rewrite suffixSums_cons. simpl. now rewrite IH.
Qed.

Lemma suffixSums_head l :
  Forall finite l -> hd (of_Z 0) (suffixSums l) = Fin (sumQc (map val l)).
Proof.
  induction 1 as [| d l Hd Hl IH].
  - simpl. apply of_Z_0.
  - rewrite suffixSums_cons. simpl. rewrite IH. destruct Hd as [q ->]. simpl.
    f_equal. ring.
Qed.

Lemma suffixSums_app l1 l2 :
  drop (length l1) (suffixSums (l1 ++ l2)) = suffixSums l2.
Proof.
  induction l1 as [| d l1 IH]; [reflexivity |]. simpl app. rewrite suffixSums_cons.
  simpl. exact IH.
Qed.

Lemma suffixSums_lookup l1 l2 :
  Forall finite l2 -> l2 <> [] ->
  suffixSums (l1 ++ l2) !! length l1 = Some (Fin (sumQc (map val l2))).
Proof.
  intros Hf Hne.
  rewrite <- (Nat.add_0_r (length l1)), <- lookup_drop, suffixSums_app.
  destruct l2 as [| d l2]; [congruence |].
  rewrite <- (suffixSums_head (d :: l2) Hf). now rewrite suffixSums_cons.
Qed.

Lemma pow10_nonzero z : pow10 z <> 0%Qc.
Proof.
  assert (Hnz : forall n, 0 < n -> Qc_of_Z n <> 0%Qc).
  { intros n Hn E. rewrite <- Z2Qc_inj_0 in E. apply Z2Qc_inj in E. lia. }
  unfold pow10. destruct (0 <=? z) eqn:E.
  - apply Hnz. apply Z.pow_pos_nonneg; lia.
  - intros H. apply (Hnz (10 ^ (- z))); [apply Z.pow_pos_nonneg; lia |].
    apply Z.leb_gt in E.
    destruct (Qc_eq_dec (Qc_of_Z (10 ^ (- z))) 0%Qc) as [E0 | N0]; [exact E0 |].
    exfalso. pose proof (Qcmult_inv_r _ N0) as Hinv. rewrite H in Hinv.
    rewrite Qcmult_0_r in Hinv. discriminate Hinv.
Qed.

Lemma parseValue_finite tx : finite (parseValue tx).
Proof.
  unfold parseValue. destruct (rawOf tx) as [| | | x]; simpl;
    try apply finite_of_Z.
  destruct (Qc_eqb_spec (pow10 (decimalsOf tx)) 0%Qc) as [E | _].
  - now apply pow10_nonzero in E.
  - apply finite_Fin.
Qed.

(** What [parseValue] returns on a finite raw value. *)
Lemma parseValue_Fin tx x :
  rawOf tx = Fin x -> parseValue tx = Fin (x / pow10 (decimalsOf tx))%Qc.
Proof.
  intros E. unfold parseValue. rewrite E. simpl.
  destruct (Qc_eqb_spec (pow10 (decimalsOf tx)) 0%Qc) as [E0 | _]; [| reflexivity].
  now apply pow10_nonzero in E0.
Qed.

(** The decimals in use: 18 without a readable [tokenDecimal], and also for
    a [tokenDecimal] that reads as 0. *)
Lemma decimalsOf_cases tx :
  (parseInt (or_str (tokenDecimal tx) "18") (Some 10) = None -> decimalsOf tx = 18)
  /\ (parseInt (or_str (tokenDecimal tx) "18") (Some 10) = Some 0 -> decimalsOf tx = 18)
  /\ (forall d, d <> 0 ->
      parseInt (or_str (tokenDecimal tx) "18") (Some 10) = Some d -> decimalsOf tx = d).
Proof.
  unfold decimalsOf. repeat split.
  - now intros ->.
  - now intros ->.
  - intros d Hd ->. now destruct (Z.eqb_spec d 0).
Qed.

Lemma parseValue_not_finite tx :
  isFinite (rawOf tx) = false -> parseValue tx = of_Z 0.
Proof. unfold parseValue. now intros ->. Qed.

Lemma enrich_finite user tx : finite (delta (enrich user tx)).
Proof.
  unfold enrich; simpl.
  destruct (String.eqb _ user); [apply parseValue_finite |].
  destruct (String.eqb _ user); [apply finite_neg, parseValue_finite | apply finite_of_Z].
Qed.

Lemma enrich_delta userAddress tx :
  val (delta (enrich (toLowerCase userAddress) tx)) = signedDelta userAddress tx.
Proof.
  unfold enrich, signedDelta, isTo, isFrom; simpl.
  destruct (String.eqb _ _); [reflexivity |].
  destruct (String.eqb _ _); [apply val_neg, parseValue_finite | apply val_of_Z_0].
Qed.

Lemma filter_filter_and {A} (f g : A -> bool) (l : list A) :
  filter (fun x => g x) (filter (fun x => f x) l) = filter (fun x => f x && g x) l.
Proof.
  induction l as [| x l IH]; [reflexivity |].
  rewrite !filter_cons. destruct (f x) eqn:Ef; simpl.
  - rewrite filter_cons. destruct (g x); simpl; now rewrite IH.
  - exact IH.
Qed.

Lemma filter_map_comm {A B} (f : A -> B) (p : B -> bool) (l : list A) :
  filter (fun y => p y) (map f l) = map f (filter (fun x => p (f x)) l).
Proof.
  induction l as [| x l IH]; [reflexivity |].
  simpl map. rewrite !filter_cons. destruct (p (f x)); simpl; now rewrite IH.
Qed.

(** The binary search returns the length of the part not after [t]. *)
Lemma searchAfter_spec times t l1 l2 :
  times = l1 ++ l2 ->
  Forall (fun x => gt x t = false) l1 ->
  Forall (fun x => gt x t = true) l2 ->
  forall lo hi,
    0 <= lo <= Z.of_nat (length l1) ->
    Z.of_nat (length l1) <= hi + 1 <= Z.of_nat (length times) ->
    searchAfter times t lo hi (hi + 1) = Z.of_nat (length l1).
Proof.
  intros -> H1 H2 lo hi.
  remember (Z.to_nat (hi - lo + 1)) as n eqn:En.
  revert lo hi En. induction n as [n IH] using lt_wf_ind. intros lo hi En Hlo Hhi.
  rewrite searchAfter_equation_1. destruct (Z_le_dec lo hi) as [Hle | Hgt]; simpl.
  2: { lia. }
  set (mid := (lo + hi) / 2).
  assert (Hmid : lo <= mid <= hi).
  { subst mid. pose proof (Z.div_mod (lo + hi) 2 ltac:(lia)).
    pose proof (Z.mod_pos_bound (lo + hi) 2 ltac:(lia)). lia. }
  rewrite length_app in Hhi.
  destruct (Z_lt_dec mid (Z.of_nat (length l1))) as [Hm | Hm].
  - rewrite lookup_app_l by lia.
    destruct (lookup_lt_is_Some_2 l1 (Z.to_nat mid) ltac:(lia)) as [x Hx].
    rewrite Hx. rewrite Forall_forall in H1.
    rewrite (H1 x) by (apply list_elem_of_In; eapply list_elem_of_lookup_2; exact Hx).
    simpl. apply (IH (Z.to_nat (hi - (mid + 1) + 1))); try lia.
    rewrite length_app. lia.
  - rewrite lookup_app_r by lia.
    destruct (lookup_lt_is_Some_2 l2 (Z.to_nat mid - length l1)%nat ltac:(lia)) as [x Hx].
    rewrite Hx. rewrite Forall_forall in H2.
    rewrite (H2 x) by (apply list_elem_of_In; eapply list_elem_of_lookup_2; exact Hx).
    simpl.
    pose proof (IH (Z.to_nat (mid - 1 - lo + 1)) ltac:(lia) lo (mid - 1) eq_refl) as IH'.
    replace (mid - 1 + 1) with mid in IH' by lia.
    apply IH'; [lia |]. rewrite length_app. lia.
Qed.

Theorem sumDeltasAfter_correct (rawTransfers : list Transfer) (userAddress : string) (t : number) :
  let e := enriched rawTransfers userAddress in
  sumDeltasAfter (map timeMs e) (suffixSums (map delta e)) t
  = Fin (deltaSumAfter rawTransfers userAddress t).
Proof.
  intros e.
  set (user := toLowerCase userAddress).
  set (valid := filter (fun e => negb (isNaN (timeMs e))) (map (enrich user) rawTransfers)).
  assert (He : e = sort (byKey timeMs) valid) by reflexivity.
  assert (Hk : Forall (keyed timeMs) valid).
  { apply Forall_forall. intros x Hx. apply list_elem_of_In, list_elem_of_filter in Hx as [Hx _].
    unfold keyed. now destruct (isNaN (timeMs x)). }
  assert (Hke : Forall (keyed timeMs) e) by (rewrite He, sort_perm; exact Hk).
  assert (Hs : StronglySorted (keyLe timeMs) e) by (rewrite He; now apply sort_sorted).
  pose proof (sorted_split timeMs t e Hke Hs) as Hsplit.
  set (e1 := filter (fun a => negb (gt (timeMs a) t)) e) in *.
  set (e2 := filter (fun a => gt (timeMs a) t) e) in *.
  assert (Hsum : sumQc (map val (map delta e2)) = deltaSumAfter rawTransfers userAddress t).
  { unfold deltaSumAfter.
    assert (Hp : e2 ≡ₚ map (enrich user) (filter (isAfter t) rawTransfers)).
    { unfold e2. rewrite He, sort_perm. unfold valid.
      rewrite filter_filter_and, filter_map_comm. reflexivity. }
    rewrite (sumQc_perm _ _ (Permutation_map val (Permutation_map delta Hp))).
    rewrite !map_map. f_equal. apply map_ext. intros tx. apply enrich_delta. }
  pose proof (f_equal length Hsplit) as Hlen. rewrite length_app in Hlen.
  assert (Htimes : map timeMs e = map timeMs e1 ++ map timeMs e2)
    by (rewrite <- map_app; now f_equal).
  assert (Hdeltas : map delta e = map delta e1 ++ map delta e2)
    by (rewrite <- map_app; now f_equal).
  assert (Hsearch :
    searchAfter (map timeMs e) t 0 (Z.of_nat (length (map timeMs e)) - 1)
      (Z.of_nat (length (map timeMs e))) = Z.of_nat (length (map timeMs e1))).
  { replace (Z.of_nat (length (map timeMs e))) with
      (Z.of_nat (length (map timeMs e)) - 1 + 1) at 2 by lia.
    apply (searchAfter_spec _ t (map timeMs e1) (map timeMs e2)).
    - exact Htimes.
    - apply Forall_forall. intros x Hx. apply in_map_iff in Hx as (a & <- & Ha).
      apply list_elem_of_In, list_elem_of_filter in Ha as [Ha _].
      now destruct (gt (timeMs a) t).
    - apply Forall_forall. intros x Hx. apply in_map_iff in Hx as (a & <- & Ha).
      apply list_elem_of_In, list_elem_of_filter in Ha as [Ha _].
      now destruct (gt (timeMs a) t).
    - lia.
    - rewrite !length_map. lia. }
  unfold sumDeltasAfter. rewrite Hsearch, !length_map.
  destruct (Z.leb_spec (Z.of_nat (length e)) (Z.of_nat (length e1))) as [Hge | Hlt].
  - assert (E2 : e2 = []) by (apply length_zero_iff_nil; lia).
    rewrite <- Hsum, E2. simpl. apply of_Z_0.
  - rewrite Nat2Z.id, Hdeltas, <- (length_map delta e1).
    rewrite suffixSums_lookup.
    + rewrite or_else_0 by apply finite_Fin. now rewrite Hsum.
    + apply Forall_forall. intros x Hx. apply in_map_iff in Hx as (b & <- & Hb).
      apply list_elem_of_In, list_elem_of_filter in Hb as [_ Hb].
      rewrite He in Hb. apply list_elem_of_In in Hb.
      eapply Permutation_in in Hb; [| apply sort_perm].
      apply list_elem_of_In, list_elem_of_filter in Hb as [_ Hb].
      apply list_elem_of_In, in_map_iff in Hb as (tx & <- & _). apply enrich_finite.
    + intros E. apply (f_equal length) in E. rewrite length_map in E. simpl in E. lia.
Qed.

End Reconstructor.

(** ** Facts about dates and day labels *)

Module DateFacts.

Import JS App NumberFacts Spec.

Lemma truncate_of_Z z : truncate (Qc_of_Z z) = z.
Proof. unfold truncate; simpl. apply Z.quot_1_r. Qed.

Lemma TimeClip_of_Z z :
  - maxTime <= z <= maxTime -> TimeClip (of_Z z) = Some z.
Proof.
  intros [Hlo Hhi]. unfold TimeClip, of_Z.
  destruct (Qc_ltb_spec (Qc_of_Z maxTime) (Qc_of_Z z)) as [H | _].
  { apply Z2Qc_inj_lt in H. lia. }
  destruct (Qc_ltb_spec (Qc_of_Z z) (Qc_of_Z (- maxTime))) as [H | _].
  { apply Z2Qc_inj_lt in H. lia. }
  simpl. now rewrite truncate_of_Z.
Qed.

Lemma localDay_bounds tza t :
  localDay tza t * msPerDay <= t + tza t < localDay tza t * msPerDay + msPerDay.
Proof.
  unfold localDay, LocalTime.
  pose proof (Z.div_mod (t + tza t) msPerDay ltac:(unfold msPerDay; lia)).
  pose proof (Z.mod_pos_bound (t + tza t) msPerDay ltac:(unfold msPerDay; lia)).
  lia.
Qed.

(** What [setHours] gives at the two ends of a day, when the instant is in
    the range of time values. *)
Lemma setHours_end tza tzl t :
  - maxTime <= endOfDay tza tzl t <= maxTime ->
  setHours tza tzl 23 59 59 999 (Some t) = Some (endOfDay tza tzl t).
Proof.
  intros Ht. unfold setHours.
  replace (localDay tza t * msPerDay + (((23 * 60 + 59) * 60 + 59) * 1000 + 999))
    with (localDay tza t * msPerDay + 86399999) by ring.
  now apply TimeClip_of_Z.
Qed.

Lemma setHours_start tza tzl t :
  - maxTime <= startOfDay tza tzl t <= maxTime ->
  setHours tza tzl 0 0 0 0 (Some t) = Some (startOfDay tza tzl t).
Proof.
  intros Ht. unfold setHours.
  replace (localDay tza t * msPerDay + (((0 * 60 + 0) * 60 + 0) * 1000 + 0))
    with (localDay tza t * msPerDay) by ring.
  now apply TimeClip_of_Z.
Qed.

Lemma monthDayKey_Some tza t :
  monthDayKey tza (Some t) = mdLabel (civil_from_days (localDay tza t)).
Proof.
  unfold monthDayKey, mdLabel, getMonth, getDate.
  destruct (civil_from_days (localDay tza t)) as [[y m] d]; simpl.
  now replace (m - 1 + 1) with m by ring.
Qed.

Lemma ymdKey_Some tza t :
  ymdKey tza (Some t) = ymdLabel (civil_from_days (localDay tza t)).
Proof.
  unfold ymdKey, ymdLabel, getFullYear, getMonth, getDate.
  now destruct (civil_from_days (localDay tza t)) as [[y m] d].
Qed.

(** The day [i] days before [now], for the ten days of the window. *)
Lemma newDate_daysAgo now i :
  validNow now -> 0 <= i <= 9 ->
  newDate (of_Z (now - i * 24 * 60 * 60 * 1000)) = Some (now - i * msPerDay).
Proof.
  intros [H0 H1] Hi. unfold newDate.
  replace (now - i * 24 * 60 * 60 * 1000) with (now - i * msPerDay)
    by (unfold msPerDay; ring).
  apply TimeClip_of_Z. unfold maxTime, msPerDay in *. lia.
Qed.

(** Without a change of the clocks in the window, the instant [i] times
    24 hours back is on the calendar day [i] days back. *)
Lemma localDay_steady tza now i :
  steadyWindow tza now -> 0 <= i <= 9 ->
  localDay tza (now - i * msPerDay) = localDay tza now - i.
Proof.
  intros Hs Hi. unfold localDay, LocalTime. rewrite (Hs i Hi).
  replace (now - i * msPerDay + tza now) with (now + tza now + (- i) * msPerDay) by ring.
  rewrite Z.div_add by (unfold msPerDay; lia). ring.
Qed.

(** A host whose clocks are never changed. *)
Section Fixed.

Variable c : Z.

Local Abbreviation host := (fixedOffset c).

Lemma localDay_sub t i :
  localDay host (t - i * msPerDay) = localDay host t - i.
Proof.
  unfold localDay, LocalTime, fixedOffset.
  replace (t - i * msPerDay + c) with (t + c + (- i) * msPerDay) by ring.
  rewrite Z.div_add by (unfold msPerDay; lia). ring.
Qed.

Lemma endOfDay_fixed t :
  endOfDay host host t = localDay host t * msPerDay + 86399999 - c.
Proof. reflexivity. Qed.

Lemma startOfDay_fixed t : startOfDay host host t = localDay host t * msPerDay - c.
Proof. reflexivity. Qed.

Lemma localDay_endOfDay t : localDay host (endOfDay host host t) = localDay host t.
Proof.
  rewrite endOfDay_fixed. set (D := localDay host t).
  unfold localDay, LocalTime, fixedOffset.
  replace (D * msPerDay + 86399999 - c + c) with (86399999 + D * msPerDay) by ring.
  rewrite Z.div_add by (unfold msPerDay; lia). reflexivity.
Qed.

Lemma localDay_startOfDay t : localDay host (startOfDay host host t) = localDay host t.
Proof.
  rewrite startOfDay_fixed. set (D := localDay host t).
  unfold localDay, LocalTime, fixedOffset.
  replace (D * msPerDay - c + c) with (0 + D * msPerDay) by ring.
  rewrite Z.div_add by (unfold msPerDay; lia). reflexivity.
Qed.

Lemma setHours_end_fixed t :
  - maxTime <= t <= maxTime - msPerDay ->
  setHours host host 23 59 59 999 (Some t) = Some (endOfDay host host t).
Proof.
  intros Ht. apply setHours_end. rewrite endOfDay_fixed.
  pose proof (localDay_bounds host t) as Hb. set (D := localDay host t) in *.
  unfold fixedOffset in Hb. unfold msPerDay in *. lia.
Qed.

Lemma setHours_start_fixed t :
  msPerDay - maxTime <= t <= maxTime ->
  setHours host host 0 0 0 0 (Some t) = Some (startOfDay host host t).
Proof.
  intros Ht. apply setHours_start. rewrite startOfDay_fixed.
  pose proof (localDay_bounds host t) as Hb. set (D := localDay host t) in *.
  unfold fixedOffset in Hb. unfold msPerDay in *. lia.
Qed.

Lemma endOfDay_sub t i :
  endOfDay host host (t - i * msPerDay) = endOfDay host host t - i * msPerDay.
Proof. rewrite !endOfDay_fixed, localDay_sub. ring. Qed.

Lemma midnightInDay_fixed t :
  msPerDay - maxTime <= t <= maxTime -> midnightInDay host host (Some t).
Proof.
  intros Ht. unfold midnightInDay. rewrite setHours_start_fixed by assumption.
  now rewrite !ymdKey_Some, localDay_startOfDay.
Qed.

Lemma steadyWindow_fixed now : steadyWindow host now.
Proof. intros i _. reflexivity. Qed.

End Fixed.

Lemma validNow_clock : validNow Samples.clock.
Proof. unfold validNow, Samples.clock, maxTime, msPerDay. lia. Qed.


Lemma for_down_lookup {A} n (f : Z -> A) k :
  (k < n)%nat -> for_down n f !! k = Some (f (Z.of_nat (n - 1 - k))).
Proof.
  revert k. induction n as [| n IH]; intros k Hk; [lia |].
  destruct k as [| k].
  - simpl for_down. rewrite list_lookup_0_cons || simpl. do 2 f_equal. lia.
  - simpl for_down. change ((?x :: ?l) !! S k) with (l !! k).
    rewrite IH by lia. do 2 f_equal. lia.
Qed.


End DateFacts.

(** ** The calendar and the day keys *)

Module CalendarFacts.

Import JS App Spec.

Lemma era_days_ok_all n z doe :
  era_days_ok n z = true -> z <= doe < z + Z.of_nat n -> era_day_ok doe = true.
Proof.
  revert z. induction n as [| n IH]; intros z H Hdoe; [lia |].
  simpl in H. apply andb_true_iff in H as [Hz Hrest].
  destruct (Z.eq_dec doe z) as [-> | Hne]; [exact Hz |].
  apply (IH (z + 1) Hrest). lia.
Qed.

Lemma era_checked : era_days_ok (Z.to_nat 146097) 0 = true.
Proof. vm_compute. reflexivity. Qed.

Lemma era_day_ok_all doe : 0 <= doe < 146097 -> era_day_ok doe = true.
Proof.
  intros H. apply (era_days_ok_all _ 0 doe era_checked).
  rewrite Z2Nat.id; lia.
Qed.

Lemma civil_from_days_round z :
  days_from_civil (civil_from_days z) = z
  /\ 1 <= snd (fst (civil_from_days z)) <= 12
  /\ 1 <= snd (civil_from_days z) <= 31.
Proof.
  unfold civil_from_days.
  set (z' := z + 719468).
  set (era := z' / 146097).
  set (doe := z' - era * 146097).
  assert (Hdoe : 0 <= doe < 146097).
  { subst doe era. pose proof (Z.div_mod z' 146097 ltac:(lia)).
    pose proof (Z.mod_pos_bound z' 146097 ltac:(lia)). lia. }
  pose proof (era_day_ok_all doe Hdoe) as Hok. unfold era_day_ok in Hok.
  set (yoe := (doe - doe / 1460 + doe / 36524 - doe / 146096) / 365) in *.
  set (doy := doe - (365 * yoe + yoe / 4 - yoe / 100)) in *.
  set (mp := (5 * doy + 2) / 153) in *.
  set (d := doy - (153 * mp + 2) / 5 + 1) in *.
  set (m := if mp <? 10 then mp + 3 else mp - 9) in *.
  repeat (apply andb_true_iff in Hok as [Hok ?]).
  repeat match goal with
         | H : (_ <=? _) = true |- _ => apply Z.leb_le in H
         | H : (_ =? _) = true |- _ => apply Z.eqb_eq in H
         end.
  cbn [fst snd]. split; [| lia].
  unfold days_from_civil.
  replace (if m <=? 2 then yoe + era * 400 + (if m <=? 2 then 1 else 0) - 1
           else yoe + era * 400 + (if m <=? 2 then 1 else 0))
    with (yoe + era * 400) by (destruct (m <=? 2); ring).
  assert (Hera : (yoe + era * 400) / 400 = era).
  { rewrite Z.div_add by lia. rewrite Z.div_small by lia. ring. }
  rewrite Hera.
  replace (yoe + era * 400 - era * 400) with yoe by ring.
  match goal with H : (if 2 <? m then _ else _) = mp |- _ => rewrite H end.
  match goal with H : _ = doe |- _ => rewrite H end.
  subst doe z'. ring.
Qed.

Lemma civil_from_days_inj a b : civil_from_days a = civil_from_days b -> a = b.
Proof.
  intros H. rewrite <- (proj1 (civil_from_days_round a)), <- (proj1 (civil_from_days_round b)).
  now rewrite H.
Qed.

Lemma pretty_N_go_dashfree x s : dashfree s = true -> dashfree (pretty_N_go x s) = true.
Proof.
  revert s. induction (N.lt_wf_0 x) as [x _ IH]; intros s Hs.
  destruct (N.eq_dec x 0%N) as [-> | Hx]; [now rewrite pretty_N_go_0 |].
  rewrite pretty_N_go_step by lia. apply IH.
  - apply N.div_lt; lia.
  - simpl. rewrite Hs, andb_true_r. unfold pretty_N_char.
    now repeat case_match.
Qed.

Lemma pretty_dashfree (z : Z) : 0 <= z -> dashfree (pretty z) = true.
Proof.
  intros Hz. destruct z as [| p | p]; [reflexivity | | lia].
  unfold pretty, pretty_Z, pretty, pretty_positive, pretty, pretty_N.
  destruct (decide _); [reflexivity |]. now apply pretty_N_go_dashfree.
Qed.

(** A string is cut at its last [-] in one way only. *)
Lemma cut_at_last_dash a a' b b' :
  dashfree b = true -> dashfree b' = true ->
  a +:+ "-" +:+ b = a' +:+ "-" +:+ b' -> a = a' /\ b = b'.
Proof.
  assert (Hdash : forall s t, dashfree (s +:+ "-" +:+ t) = false).
  { induction s as [| c s IH]; intros t; [reflexivity |].
    change (negb (Ascii.eqb c "-") && dashfree (s +:+ "-" +:+ t) = false).
    now rewrite IH, andb_false_r. }
  revert a'. induction a as [| c a IH]; intros [| c' a'] Hb Hb' E.
  - change (String "-" b = String "-" b') in E. now inversion E.
  - change (String "-" b = String c' (a' +:+ "-" +:+ b')) in E.
    inversion E as [[Hc Ht]]. rewrite Ht, Hdash in Hb. discriminate.
  - change (String c (a +:+ "-" +:+ b) = String "-" b') in E.
    inversion E as [[Hc Ht]]. rewrite <- Ht, Hdash in Hb'. discriminate.
  - change (String c (a +:+ "-" +:+ b) = String c' (a' +:+ "-" +:+ b')) in E.
    inversion E as [[Hc Ht]]. destruct (IH a' Hb Hb' Ht) as [-> ->]. now split.
Qed.

Lemma append_assoc (a b c : string) : a +:+ (b +:+ c) = (a +:+ b) +:+ c.
Proof.
  induction a as [| x a IH]; [reflexivity |].
  change (String x (a +:+ (b +:+ c)) = String x ((a +:+ b) +:+ c)). now rewrite IH.
Qed.

(** Distinct days have distinct keys. *)
Lemma ymdLabel_inj a b :
  ymdLabel (civil_from_days a) = ymdLabel (civil_from_days b) -> a = b.
Proof.
  intros E. apply civil_from_days_inj.
  destruct (civil_from_days_round a) as (_ & Hma & Hda).
  destruct (civil_from_days_round b) as (_ & Hmb & Hdb).
  destruct (civil_from_days a) as [[y m] d], (civil_from_days b) as [[y' m'] d'].
  cbn [fst snd] in *. unfold ymdLabel in E.
  rewrite (append_assoc (pretty y) "-"), (append_assoc _ (pretty (m - 1))) in E.
  rewrite (append_assoc (pretty y') "-"), (append_assoc _ (pretty (m' - 1))) in E.
  rewrite <- (append_assoc (pretty y) "-"), <- (append_assoc (pretty y') "-") in E.
  apply cut_at_last_dash in E as [E Ed];
    [| apply pretty_dashfree; lia | apply pretty_dashfree; lia].
  apply cut_at_last_dash in E as [Ey Em];
    [| apply pretty_dashfree; lia | apply pretty_dashfree; lia].
  apply pretty_Z_inj in Ey, Em, Ed. f_equal; [f_equal |]; lia.
Qed.

End CalendarFacts.

(** ** The balance chart *)

Module ChartFacts.

Import JS App NumberFacts DateFacts Reconstructor Spec.




Lemma for_down_ext {A} n (f g : Z -> A) :
  (forall i, f i = g i) -> for_down n f = for_down n g.
Proof. intros H. induction n as [| n IH]; simpl; [reflexivity | now rewrite H, IH]. Qed.


(** On a host whose clocks are never changed, the chart looks at the ends
    of ten calendar days in a row. *)
Lemma chartDay_fixed c now i :
  validNow now -> 0 <= i <= 9 ->
  chartDay (fixedOffset c) (fixedOffset c) now i
  = Some (endOfDay (fixedOffset c) (fixedOffset c) (now - i * msPerDay)).
Proof.
  intros Hn Hi. unfold chartDay. rewrite newDate_daysAgo by assumption.
  apply setHours_end_fixed. destruct Hn. unfold maxTime, msPerDay in *. lia.
Qed.

(** No transfer with a valid time after [t]: nothing to subtract. *)
Lemma deltaSumAfter_none rawTransfers userAddress t :
  Forall (fun tx => isAfter t tx = false) rawTransfers ->
  deltaSumAfter rawTransfers userAddress t = 0%Qc.
Proof.
  intros H. unfold deltaSumAfter.
  replace (filter (isAfter t) rawTransfers) with (@nil Transfer); [reflexivity |].
  induction H as [| tx l Htx _ IH]; [reflexivity |].
  rewrite filter_cons, Htx. simpl. exact IH.
Qed.

End ChartFacts.

(** ** The daily aggregation *)

Module AggregatorFacts.

Import JS App NumberFacts DateFacts Reconstructor Spec.

Section Window.

Variables (tza : Z -> Z) (now : Z) (address : string).

Lemma filter_snoc (p : Transfer -> bool) l tx :
  filter (fun x => p x) (l ++ [tx])
  = filter (fun x => p x) l ++ (if p tx then [tx] else []).
Proof.
  induction l as [| x l IH]; simpl.
  - rewrite filter_cons. now destruct (p tx).
  - rewrite !filter_cons. destruct (p x); simpl; now rewrite IH.
Qed.

Lemma valueSum_snoc l tx :
  valueSum (l ++ [tx]) = (valueSum l + val (parseValue tx))%Qc.
Proof. unfold valueSum. rewrite map_app, sumQc_app. simpl. ring. Qed.

Lemma valueSum_filter_snoc (p : Transfer -> bool) l tx :
  valueSum (filter (fun x => p x) (l ++ [tx]))
  = (valueSum (filter (fun x => p x) l)
     + (if p tx then val (parseValue tx) else 0))%Qc.
Proof.
  rewrite filter_snoc. destruct (p tx).
  - apply valueSum_snoc.
  - rewrite app_nil_r. ring.
Qed.

Lemma filter_quiet (p q : Transfer -> bool) l :
  existsb p l = false -> (forall tx, p tx = false -> q tx = false) ->
  filter (fun tx => q tx) l = [].
Proof.
  intros H Hq. induction l as [| x l IH]; [reflexivity |]. simpl in H.
  apply orb_false_iff in H as [Hx Hl].
  rewrite filter_cons, (Hq x Hx). simpl. exact (IH Hl).
Qed.

Lemma bucketOf_quiet key l :
  existsb (onDay tza now key) l = false -> bucketOf tza now address key l = emptyDay key.
Proof.
  intros H. unfold bucketOf, emptyDay, receivedOn, sentOn.
  rewrite (filter_quiet (onDay tza now key) (fun tx => onDay tza now key tx && isTo address tx) l H)
    by (now intros tx ->).
  rewrite (filter_quiet (onDay tza now key)
             (fun tx => onDay tza now key tx && negb (isTo address tx) && isFrom address tx) l H)
    by (now intros tx ->).
  unfold valueSum; simpl. rewrite of_Z_0.
  f_equal; try (f_equal; ring).
Qed.

(** The map the [forEach] builds holds, under each label in use, the
    sums of the transfers filed under it. *)
Lemma group_fold l key :
  fold_left (groupStep tza now address) l ∅ !! key
  = if existsb (onDay tza now key) l then Some (bucketOf tza now address key l) else None.
Proof.
  induction l as [| tx l IH] using rev_ind; [reflexivity |].
  rewrite fold_left_app, existsb_app. simpl. rewrite orb_false_r.
  set (m := fold_left (groupStep tza now address) l ∅) in *.
  assert (Hb : bucketOf tza now address key (l ++ [tx])
               = {| day := key;
                    received := Fin (receivedOn tza now address key l
                      + (if onDay tza now key tx && isTo address tx
                         then val (parseValue tx) else 0));
                    sent := Fin (sentOn tza now address key l
                      + (if onDay tza now key tx && negb (isTo address tx) && isFrom address tx
                         then val (parseValue tx) else 0));
                    net := Fin ((receivedOn tza now address key l
                      + (if onDay tza now key tx && isTo address tx
                         then val (parseValue tx) else 0))
                      - (sentOn tza now address key l
                      + (if onDay tza now key tx && negb (isTo address tx) && isFrom address tx
                         then val (parseValue tx) else 0))) |}).
  { unfold bucketOf, receivedOn, sentOn. now rewrite !valueSum_filter_snoc. }
  assert (Hquiet : onDay tza now key tx = false ->
            (if existsb (onDay tza now key) l || onDay tza now key tx
             then Some (bucketOf tza now address key (l ++ [tx])) else None)
            = m !! key).
  { intros Hon. rewrite Hon, orb_false_r, IH.
    destruct (existsb (onDay tza now key) l); [| reflexivity].
    rewrite Hb, Hon. simpl. unfold bucketOf. do 2 f_equal; f_equal; ring. }
  unfold groupStep. fold (keyOf tza tx).
  destruct (isNaN (toMs (timeStamp tx))) eqn:Enan.
  { rewrite Hquiet; [reflexivity |]. unfold onDay, inWindow. now rewrite Enan. }
  destruct (gt (sub (of_Z now) (toMs (timeStamp tx))) (of_Z tenDaysMs)) eqn:Eold.
  { rewrite Hquiet; [reflexivity |]. unfold onDay, inWindow. now rewrite Enan, Eold. }
  assert (Hwin : inWindow now tx = true) by (unfold inWindow; now rewrite Enan, Eold).
  destruct (String.eqb_spec (keyOf tza tx) key) as [Ek | Ek].
  2: { rewrite Hquiet.
       2: { unfold onDay. apply String.eqb_neq in Ek. now rewrite Ek, andb_false_r. }
       assert (Hother : forall m' : gmap string TransactionData,
         m' !! key = m !! key ->
         alter setNet (keyOf tza tx)
           (if isTo address tx then alter (addReceived (parseValue tx)) (keyOf tza tx) m'
            else if isFrom address tx then alter (addSent (parseValue tx)) (keyOf tza tx) m'
            else m') !! key = m !! key).
       { intros m' Hm'. rewrite lookup_alter_ne by assumption.
         destruct (isTo address tx); [now rewrite lookup_alter_ne |].
         destruct (isFrom address tx); [now rewrite lookup_alter_ne | assumption]. }
       destruct (m !! keyOf tza tx); apply Hother; [reflexivity |].
       now rewrite lookup_insert_ne. }
  subst key.
  assert (Hon : onDay tza now (keyOf tza tx) tx = true)
    by (unfold onDay; now rewrite Hwin, String.eqb_refl).
  rewrite Hon, orb_true_r, Hb, Hon. simpl andb.
  set (v := parseValue tx) in *.
  assert (Hv : v = Fin (val v)) by (apply finite_val, parseValue_finite).
  set (b0 := if existsb (onDay tza now (keyOf tza tx)) l
             then bucketOf tza now address (keyOf tza tx) l
             else emptyDay (keyOf tza tx)).
  assert (Hm1 : (match m !! keyOf tza tx with
                 | Some _ => m
                 | None => <[keyOf tza tx := emptyDay (keyOf tza tx)]> m
                 end) !! keyOf tza tx = Some b0).
  { rewrite IH. unfold b0. destruct (existsb (onDay tza now (keyOf tza tx)) l).
    - now rewrite IH.
    - apply lookup_insert_eq. }
  assert (Hb0 : b0 = {| day := keyOf tza tx;
                        received := Fin (receivedOn tza now address (keyOf tza tx) l);
                        sent := Fin (sentOn tza now address (keyOf tza tx) l); net := net b0 |}).
  { unfold b0. destruct (existsb (onDay tza now (keyOf tza tx)) l) eqn:Ex; [reflexivity |].
    rewrite <- (bucketOf_quiet _ _ Ex). reflexivity. }
  rewrite lookup_alter_eq.
  destruct (isTo address tx); simpl.
  { rewrite lookup_alter_eq, Hm1. simpl. rewrite Hb0. unfold setNet, addReceived; simpl.
    rewrite Hv. simpl. do 2 f_equal; f_equal; ring. }
  destruct (isFrom address tx); simpl.
  { rewrite lookup_alter_eq, Hm1. simpl. rewrite Hb0. unfold setNet, addSent; simpl.
    rewrite Hv. simpl. do 2 f_equal; f_equal; ring. }
  rewrite Hm1. simpl. rewrite Hb0. unfold setNet; simpl.
  do 2 f_equal; f_equal; ring.
Qed.

(** The result, bucket by bucket. *)
Lemma group_buckets l :
  groupTransactionsByDay tza now l address
  = for_down 10 (fun i =>
      bucketOf tza now address
        (monthDayKey tza (newDate (of_Z (now - i * 24 * 60 * 60 * 1000)))) l).
Proof.
  unfold groupTransactionsByDay. apply ChartFacts.for_down_ext. intros i.
  cbv zeta. rewrite group_fold.
  destruct (existsb _ l) eqn:E; [reflexivity |].
  symmetry. now apply bucketOf_quiet.
Qed.

Lemma bucketOf_net key l :
  net (bucketOf tza now address key l)
  = sub (received (bucketOf tza now address key l))
      (sent (bucketOf tza now address key l)).
Proof. reflexivity. Qed.

(** Without a change of the clocks in the window, the buckets are those of
    ten calendar days in a row, the day nine days ago first. *)
Lemma buckets_calendar_days l (k : nat) :
  validNow now -> steadyWindow tza now -> (k < 10)%nat ->
  groupTransactionsByDay tza now l address !! k
  = Some (bucketOf tza now address
            (mdLabel (civil_from_days (localDay tza now - (9 - Z.of_nat k)))) l).
Proof.
  intros Hnow Hsteady Hk. rewrite group_buckets, for_down_lookup by lia.
  replace (Z.of_nat (10 - 1 - k)) with (9 - Z.of_nat k) by lia.
  rewrite (newDate_daysAgo now (9 - Z.of_nat k) Hnow ltac:(lia)).
  now rewrite monthDayKey_Some, localDay_steady by (assumption || lia).
Qed.

End Window.

End AggregatorFacts.

(** ** The activity streak *)

Module StreakFacts.

Import JS App NumberFacts SortFacts DateFacts CalendarFacts Spec.

#[local] Set Warnings "-clear-no-such-hyp".

Section Streak.

Variables tza tzl : Z -> Z.

Lemma activeDays_fold transfers (acc : gset string) :
  fold_left (fun (acc : gset string) tx =>
    let txTime := toMs (timeStamp tx) in
    if isNaN txTime then acc
    else
      let date := newDate txTime in
      {[ ymdKey tza date ]} ∪ acc) transfers acc
  = list_to_set (map (dayKeyOf tza) (filter (fun tx => validTime tx) transfers)) ∪ acc.
Proof.
  revert acc. induction transfers as [| tx l IH]; intros acc; simpl.
  - set_solver.
  - rewrite IH, filter_cons.
    assert (Hv : validTime tx = negb (isNaN (toMs (timeStamp tx)))) by reflexivity.
    destruct (isNaN (toMs (timeStamp tx))); simpl in Hv; rewrite Hv; simpl;
      [reflexivity |].
    fold (dayKeyOf tza tx). set_solver.
Qed.

Lemma activeDays_keys transfers :
  activeDays tza transfers
  = list_to_set (map (dayKeyOf tza) (filter (fun tx => validTime tx) transfers)).
Proof. unfold activeDays. rewrite activeDays_fold. set_solver. Qed.

Lemma elem_activeDays transfers key :
  key ∈ activeDays tza transfers
  <-> exists tx, In tx transfers /\ validTime tx = true /\ dayKeyOf tza tx = key.
Proof.
  rewrite activeDays_keys, elem_of_list_to_set, list_elem_of_In, in_map_iff.
  split; intros (tx & H1 & H2).
  - apply list_elem_of_In, list_elem_of_filter in H2 as [Hv Hin].
    exists tx. repeat split; [now apply list_elem_of_In | now apply Is_true_true | assumption].
  - destruct H2 as [Hv <-]. exists tx. split; [reflexivity |].
    apply list_elem_of_In, list_elem_of_filter.
    split; [now apply Is_true_true | now apply list_elem_of_In].
Qed.

Lemma includes_In key l : Array_includes key l = true <-> In key l.
Proof.
  unfold Array_includes. rewrite existsb_exists. split.
  - intros (x & Hx & E). apply String.eqb_eq in E. now subst.
  - intros H. exists key. split; [assumption | apply String.eqb_refl].
Qed.

Lemma sortedDays_perm transfers :
  sortedDays tza transfers ≡ₚ elements (activeDays tza transfers).
Proof. unfold sortedDays. now rewrite <- Permutation_rev, sort_perm. Qed.

Lemma includes_sortedDays transfers key :
  Array_includes key (sortedDays tza transfers) = true
  <-> key ∈ activeDays tza transfers.
Proof.
  rewrite includes_In, <- list_elem_of_In, sortedDays_perm. apply elem_of_elements.
Qed.

Lemma activeOn_includes transfers d :
  Array_includes (ymdKey tza d) (sortedDays tza transfers) = activeOn tza transfers d.
Proof.
  apply eq_true_iff_eq. rewrite includes_sortedDays, elem_activeDays.
  unfold activeOn. rewrite existsb_exists. split.
  - intros (tx & Hin & Hv & Hk). exists tx. split; [assumption |].
    rewrite Hv, Hk. apply String.eqb_refl.
  - intros (tx & Hin & H). apply andb_true_iff in H as [Hv Hk].
    apply String.eqb_eq in Hk. now exists tx.
Qed.

Lemma sortedDays_length transfers :
  length (sortedDays tza transfers) = size (activeDays tza transfers).
Proof. now rewrite sortedDays_perm. Qed.

Lemma walk_S act n streak d :
  walk tza tzl act (S n) streak d
  = if act (ymdKey tza (setHours tza tzl 0 0 0 0 d))
    then walk tza tzl act n (streak + 1) (dayBefore d)
    else streak.
Proof. reflexivity. Qed.

Lemma streakLoop_walk sd n i streak d :
  0 < i ->
  streakLoop tza tzl sd n i streak d
  = walk tza tzl (fun key => Array_includes key sd) n streak d.
Proof.
  revert i streak d. induction n as [| n IH]; intros i streak d Hi; [reflexivity |].
  simpl. destruct (Array_includes _ sd).
  - apply IH. lia.
  - destruct (Z.eqb_spec i 0); [lia | reflexivity].
Qed.

(** The first iteration, with its look at the day before. *)
Lemma streakLoop_first sd n d :
  let act := fun key => Array_includes key sd in
  streakLoop tza tzl sd (S n) 0 0 d
  = if act (ymdKey tza (setHours tza tzl 0 0 0 0 d))
    then walk tza tzl act n 1 (dayBefore d)
    else if act (ymdKey tza (dayBefore d))
         then walk tza tzl act n 1 (dayBefore (dayBefore d))
         else 0.
Proof.
  simpl. destruct (Array_includes _ sd); [now apply streakLoop_walk |].
  destruct (Array_includes _ sd); [now apply streakLoop_walk | reflexivity].
Qed.

Lemma walk_ge act n streak d : streak <= walk tza tzl act n streak d <= streak + Z.of_nat n.
Proof.
  revert streak d. induction n as [| n IH]; intros streak d; simpl; [lia |].
  destruct (act _); [| lia]. specialize (IH (streak + 1) (dayBefore d)). lia.
Qed.

Lemma walk_mono act act' n streak streak' d :
  (forall key, act key = true -> act' key = true) ->
  streak <= streak' ->
  walk tza tzl act n streak d <= walk tza tzl act' n streak' d.
Proof.
  intros Hact. revert streak streak' d.
  induction n as [| n IH]; intros streak streak' d Hs; simpl; [lia |].
  destruct (act _) eqn:E.
  - rewrite (Hact _ E). apply IH. lia.
  - destruct (act' _); [| lia].
    pose proof (walk_ge act' n (streak' + 1) (dayBefore d)). lia.
Qed.

Lemma sub_of_Z a b : sub (of_Z a) (of_Z b) = of_Z (a - b).
Proof. unfold sub, of_Z; simpl. f_equal. now rewrite Z2Qc_inj_sub. Qed.

Lemma dayBefore_Some t :
  msPerDay - maxTime <= t <= maxTime ->
  dayBefore (Some t) = Some (t - msPerDay).
Proof.
  intros Ht. unfold dayBefore, getTime, newDate. rewrite sub_of_Z.
  apply TimeClip_of_Z. change oneDayMs with msPerDay. unfold msPerDay, maxTime in *. lia.
Qed.

(** The early return for the empty collection agrees with the loop. *)
Lemma streak_unfold now transfers :
  calculateActiveStreak tza tzl now transfers
  = streakLoop tza tzl (sortedDays tza transfers)
      (length (sortedDays tza transfers)) 0 0 (newDate (of_Z now)).
Proof.
  destruct transfers as [| tx l]; [| reflexivity].
  rewrite sortedDays_length.
  change (activeDays tza []) with (∅ : gset string).
  now rewrite size_empty.
Qed.

(** The streak as a case analysis on the day of [now] and the day of the
    instant 24 hours before. *)
Lemma streak_cases now transfers :
  2 * msPerDay - maxTime <= now <= maxTime ->
  midnightInDay tza tzl (Some now) ->
  let act := fun key => Array_includes key (sortedDays tza transfers) in
  calculateActiveStreak tza tzl now transfers
  = match size (activeDays tza transfers) with
    | O => 0
    | S n =>
        if activeOn tza transfers (Some now)
        then walk tza tzl act n 1 (Some (now - msPerDay))
        else if activeOn tza transfers (Some (now - msPerDay))
             then walk tza tzl act n 1 (Some (now - 2 * msPerDay))
             else 0
    end.
Proof.
  intros Hnow Hmid act.
  assert (Hd0 : newDate (of_Z now) = Some now)
    by (apply TimeClip_of_Z; unfold msPerDay, maxTime in *; lia).
  assert (Hd1 : dayBefore (Some now) = Some (now - msPerDay))
    by (apply dayBefore_Some; unfold msPerDay, maxTime in *; lia).
  assert (Hd2 : dayBefore (Some (now - msPerDay)) = Some (now - 2 * msPerDay)).
  { rewrite dayBefore_Some by (unfold msPerDay, maxTime in *; lia). f_equal. ring. }
  rewrite streak_unfold, sortedDays_length.
  destruct (size (activeDays tza transfers)) as [| n]; [reflexivity |].
  rewrite streakLoop_first, Hd0, Hd1, Hd2, Hmid.
  now rewrite !activeOn_includes.
Qed.

Lemma streak_bounds now transfers :
  0 <= calculateActiveStreak tza tzl now transfers
    <= Z.of_nat (size (activeDays tza transfers)).
Proof.
  rewrite streak_unfold, sortedDays_length.
  generalize (newDate (of_Z now)) as d. intros d.
  destruct (size (activeDays tza transfers)) as [| n]; [simpl; lia |].
  rewrite streakLoop_first. cbv zeta.
  pose proof (walk_ge (fun key => Array_includes key (sortedDays tza transfers))
                n 1 (dayBefore d)).
  pose proof (walk_ge (fun key => Array_includes key (sortedDays tza transfers))
                n 1 (dayBefore (dayBefore d))).
  destruct (Array_includes _ _); [lia |]. destruct (Array_includes _ _); lia.
Qed.

(** Adding a transfer adds its key to the set. *)
Lemma activeDays_insert l1 l2 tx :
  validTime tx = true ->
  activeDays tza (l1 ++ tx :: l2) = {[ dayKeyOf tza tx ]} ∪ activeDays tza (l1 ++ l2).
Proof.
  intros Hv. rewrite !activeDays_keys.
  assert (E : forall l, filter (fun tx => validTime tx) (l1 ++ l)
              = filter (fun tx => validTime tx) l1 ++ filter (fun tx => validTime tx) l).
  { intros l. induction l1 as [| x l1 IH]; [reflexivity |]. simpl.
    rewrite !filter_cons. destruct (validTime x); simpl; now rewrite IH. }
  rewrite !E, filter_cons, Hv. simpl. rewrite !map_app, !list_to_set_app_L. simpl.
  set_solver.
Qed.

(** Nothing on the day of [now], something on the day of the instant 24
    hours before: the streak is the one counted from that instant. *)
Lemma streak_grace now transfers :
  validNow now ->
  midnightInDay tza tzl (Some now) ->
  midnightInDay tza tzl (Some (now - msPerDay)) ->
  activeOn tza transfers (Some now) = false ->
  activeOn tza transfers (Some (now - msPerDay)) = true ->
  calculateActiveStreak tza tzl now transfers
  = calculateActiveStreak tza tzl (now - msPerDay) transfers
  /\ 1 <= calculateActiveStreak tza tzl now transfers.
Proof.
  intros [H0 H1] Hm0 Hm1 Ht Hy.
  rewrite !streak_cases by (assumption || unfold msPerDay, maxTime in *; lia).
  destruct (size (activeDays tza transfers)) as [| n] eqn:En.
  - exfalso. apply size_empty_inv in En.
    rewrite <- activeOn_includes in Hy. apply includes_sortedDays in Hy.
    now apply En in Hy.
  - rewrite Ht, Hy.
    replace (now - msPerDay - msPerDay) with (now - 2 * msPerDay) by ring.
    split; [reflexivity |].
    apply (walk_ge _ n 1 (Some (now - 2 * msPerDay))).
Qed.

(** Nothing on either of the two days: no streak. *)
Lemma streak_none now transfers :
  validNow now ->
  midnightInDay tza tzl (Some now) ->
  activeOn tza transfers (Some now) = false ->
  activeOn tza transfers (Some (now - msPerDay)) = false ->
  calculateActiveStreak tza tzl now transfers = 0.
Proof.
  intros [H0 H1] Hm0 Ht Hy.
  rewrite streak_cases by (assumption || unfold msPerDay, maxTime in *; lia).
  destruct (size (activeDays tza transfers)); [reflexivity |].
  now rewrite Ht, Hy.
Qed.

(** One more transfer today never shortens the streak. *)
Lemma streak_mono now l1 l2 tx :
  validNow now ->
  midnightInDay tza tzl (Some now) ->
  midnightInDay tza tzl (Some (now - msPerDay)) ->
  validTime tx = true ->
  dayKeyOf tza tx = ymdKey tza (Some now) ->
  calculateActiveStreak tza tzl now (l1 ++ l2)
  <= calculateActiveStreak tza tzl now (l1 ++ tx :: l2).
Proof.
  intros [H0 H1] Hm0 Hm1 Hv Hk.
  pose proof (activeDays_insert l1 l2 tx Hv) as HS. rewrite Hk in HS.
  set (l := l1 ++ l2) in *. set (l' := l1 ++ tx :: l2) in *.
  set (act := fun key => Array_includes key (sortedDays tza l)).
  set (act' := fun key => Array_includes key (sortedDays tza l')).
  assert (Hsub : forall key, act key = true -> act' key = true).
  { intros key. unfold act, act'. rewrite !includes_sortedDays, HS. set_solver. }
  assert (Htoday : activeOn tza l' (Some now) = true).
  { rewrite <- activeOn_includes. apply includes_sortedDays. rewrite HS. set_solver. }
  rewrite !streak_cases by (assumption || unfold msPerDay, maxTime in *; lia).
  fold act act'. rewrite Htoday.
  destruct (size (activeDays tza l)) as [| n] eqn:En.
  { destruct (size (activeDays tza l')) as [| n']; [lia |].
    pose proof (walk_ge act' n' 1 (Some (now - msPerDay))). lia. }
  destruct (activeOn tza l (Some now)) eqn:Et.
  - assert (Hin : ymdKey tza (Some now) ∈ activeDays tza l)
      by (apply includes_sortedDays; now rewrite activeOn_includes).
    assert (HS' : activeDays tza l' = activeDays tza l) by (rewrite HS; set_solver).
    rewrite HS', En. apply walk_mono; [exact Hsub | lia].
  - assert (Hnin : ymdKey tza (Some now) ∉ activeDays tza l).
    { intros Hin. apply includes_sortedDays in Hin.
      rewrite activeOn_includes in Hin. congruence. }
    rewrite HS, size_union by set_solver. rewrite size_singleton, En.
    change (1 + S n)%nat with (S (S n)).
    destruct (activeOn tza l (Some (now - msPerDay))) eqn:Ey.
    + rewrite (walk_S act'), Hm1.
      assert (Hy' : act' (ymdKey tza (Some (now - msPerDay))) = true).
      { apply Hsub. unfold act. now rewrite activeOn_includes. }
      rewrite Hy', dayBefore_Some by (unfold msPerDay, maxTime in *; lia).
      replace (now - msPerDay - msPerDay) with (now - 2 * msPerDay) by ring.
      apply walk_mono; [exact Hsub | lia].
    + pose proof (walk_ge act' (S n) 1 (Some (now - msPerDay))). lia.
Qed.

(** A single transfer, on the day of the instant 24 hours before [now]. *)
Lemma streak_single now tx :
  validNow now ->
  midnightInDay tza tzl (Some now) ->
  midnightInDay tza tzl (Some (now - msPerDay)) ->
  activeOn tza [tx] (Some now) = false ->
  activeOn tza [tx] (Some (now - msPerDay)) = true ->
  calculateActiveStreak tza tzl now [tx] = 1.
Proof.
  intros Hnow Hm0 Hm1 Ht Hy.
  destruct (streak_grace now [tx] Hnow Hm0 Hm1 Ht Hy) as [_ Hge].
  pose proof (streak_bounds now [tx]) as [_ Hle].
  assert (Hv : validTime tx = true).
  { unfold activeOn in Hy. simpl in Hy. rewrite orb_false_r in Hy.
    now apply andb_true_iff in Hy as [Hv _]. }
  assert (Hsize : size (activeDays tza [tx]) = 1%nat).
  { change [tx] with ([] ++ tx :: []). rewrite (activeDays_insert [] [] tx Hv).
    change (activeDays tza ([] ++ [])) with (∅ : gset string).
    rewrite (right_id_L ∅ (∪)). apply size_singleton. }
  lia.
Qed.

End Streak.

(** The exact count, on a host whose clocks are never changed. *)
Section Exact.

Variables (offset now : Z) (transfers : list Transfer).

Local Abbreviation host := (fixedOffset offset).

Lemma keyAgo_inj i j : keyAgo host now i = keyAgo host now j -> i = j.
Proof. unfold keyAgo. intros E. apply ymdLabel_inj in E. lia. Qed.

Lemma ymdKey_ago j : ymdKey host (Some (now - j * msPerDay)) = keyAgo host now j.
Proof. now rewrite ymdKey_Some, localDay_sub. Qed.

Lemma activeAgo_elem j :
  activeAgo host now transfers j = true <-> keyAgo host now j ∈ activeDays host transfers.
Proof.
  unfold activeAgo. rewrite <- activeOn_includes, includes_sortedDays.
  now rewrite ymdKey_ago.
Qed.

(** As many days in a row as are active give as many keys in the set. *)
Lemma active_run_size (a : Z) (n : nat) :
  (forall j, a <= j < a + Z.of_nat n -> activeAgo host now transfers j = true) ->
  (n <= size (activeDays host transfers))%nat.
Proof.
  intros Hrun.
  set (keys := map (fun k => (keyAgo host now) (a + Z.of_nat k)) (seq 0 n)).
  assert (Hnd : NoDup keys).
  { apply NoDup_fmap_2_strong; [| apply NoDup_seq].
    intros x y _ _ E. apply keyAgo_inj in E. lia. }
  assert (Hsub : (list_to_set keys : gset string) ⊆ activeDays host transfers).
  { intros key Hkey. apply elem_of_list_to_set, list_elem_of_In, in_map_iff in Hkey
      as (k & <- & Hk).
    apply in_seq in Hk. apply activeAgo_elem, Hrun. lia. }
  apply subseteq_size in Hsub.
  rewrite size_list_to_set in Hsub by assumption.
  unfold keys in Hsub. now rewrite length_map, length_seq in Hsub.
Qed.

(** The loop stops at an inactive day, not for want of iterations. *)
Lemma walk_exact (start : Z) (fuel : nat) (c streak : Z) :
  0 <= start <= c ->
  (c + Z.of_nat fuel + 2) * msPerDay <= maxTime ->
  0 <= now <= maxTime ->
  (forall j, start <= j < c -> activeAgo host now transfers j = true) ->
  (size (activeDays host transfers) <= fuel + Z.to_nat (c - start))%nat ->
  exists r,
    walk host host (fun key => Array_includes key (sortedDays host transfers))
      fuel streak (Some (now - c * msPerDay)) = streak + r
    /\ 0 <= r
    /\ (forall j, c <= j < c + r -> activeAgo host now transfers j = true)
    /\ activeAgo host now transfers (c + r) = false.
Proof.
  revert c streak. induction fuel as [| fuel IH]; intros c streak Hc Hrange Hnow Hrun Hsize.
  - exists 0. simpl. split; [ring |]. split; [lia |]. split; [intros j Hj; lia |].
    rewrite Z.add_0_r. apply not_true_is_false. intros Hact.
    assert (Hrun' : forall j, start <= j < start + Z.of_nat (Z.to_nat (c - start + 1)) ->
                          activeAgo host now transfers j = true).
    { intros j Hj. destruct (Z.eq_dec j c) as [-> | Hne]; [exact Hact | apply Hrun; lia]. }
    apply active_run_size in Hrun'. lia.
  - rewrite walk_S.
    rewrite (midnightInDay_fixed offset) by (unfold msPerDay, maxTime in *; lia).
    rewrite activeOn_includes. fold (activeAgo host now transfers c).
    destruct (activeAgo host now transfers c) eqn:Hact.
    + rewrite dayBefore_Some by (unfold msPerDay, maxTime in *; lia).
      replace (now - c * msPerDay - msPerDay) with (now - (c + 1) * msPerDay) by ring.
      destruct (IH (c + 1) (streak + 1)) as (r & Hw & Hr & Hall & Hstop).
      * lia.
      * lia.
      * assumption.
      * intros j Hj. destruct (Z.eq_dec j c) as [-> | Hne]; [exact Hact | apply Hrun; lia].
      * lia.
      * exists (r + 1). rewrite Hw. split; [ring |]. split; [lia |]. split.
        -- intros j Hj. destruct (Z.eq_dec j c) as [-> | Hne]; [exact Hact | apply Hall; lia].
        -- now replace (c + (r + 1)) with (c + 1 + r) by ring.
    + exists 0. split; [ring |]. split; [lia |]. split; [intros j Hj; lia |].
      now rewrite Z.add_0_r.
Qed.

Lemma activeDays_size : (size (activeDays host transfers) <= length transfers)%nat.
Proof.
  induction transfers as [| tx l IH]; [reflexivity |].
  destruct (validTime tx) eqn:Hv.
  - change (tx :: l) with ([] ++ tx :: l). rewrite (activeDays_insert host [] l tx Hv).
    rewrite size_union_alt, size_singleton.
    assert (Hsub : activeDays host ([] ++ l) ∖ {[dayKeyOf host tx]} ⊆ activeDays host l)
      by set_solver.
    apply subseteq_size in Hsub. simpl length. lia.
  - rewrite activeDays_keys, filter_cons, Hv. simpl.
    rewrite <- activeDays_keys. lia.
Qed.

Lemma activeAgo_0 : activeAgo host now transfers 0 = activeOn host transfers (Some now).
Proof. unfold activeAgo. now rewrite Z.mul_0_l, Z.sub_0_r. Qed.

Lemma activeAgo_1 : activeAgo host now transfers 1 = activeOn host transfers (Some (now - msPerDay)).
Proof. unfold activeAgo. now rewrite Z.mul_1_l. Qed.

(** The streak is the number of active days in a row, counted back from
    today or, when today has no transfer, from yesterday. *)
Lemma streak_exact :
  validNow now ->
  (Z.of_nat (length transfers) + 4) * msPerDay <= maxTime ->
  let start := if activeAgo host now transfers 0 then 0 else 1 in
  let n := calculateActiveStreak host host now transfers in
  0 <= n
  /\ (forall j, start <= j < start + n -> activeAgo host now transfers j = true)
  /\ activeAgo host now transfers (start + n) = false.
Proof.
  intros [Hn0 Hn1] Hlen start n. subst n.
  pose proof activeDays_size as Hsize.
  rewrite streak_cases
    by (apply midnightInDay_fixed || idtac; unfold msPerDay, maxTime in *; lia).
  rewrite <- activeAgo_0, <- activeAgo_1.
  destruct (size (activeDays host transfers)) as [| m] eqn:Em.
  { apply size_empty_inv in Em.
    assert (Hnone : forall j, activeAgo host now transfers j = false).
    { intros j. apply not_true_is_false. intros H. apply activeAgo_elem in H.
      now apply Em in H. }
    subst start. rewrite (Hnone 0). split; [lia |].
    split; [intros j Hj; lia | apply Hnone]. }
  subst start. destruct (activeAgo host now transfers 0) eqn:H0.
  - replace (now - msPerDay) with (now - 1 * msPerDay) by ring.
    destruct (walk_exact 0 m 1 1) as (r & -> & Hr & Hall & Hstop);
      try (unfold msPerDay, maxTime in *; lia).
    + intros j Hj. now replace j with 0 by lia.
    + split; [lia |]. split.
      * intros j Hj. destruct (Z.eq_dec j 0) as [-> | Hne]; [exact H0 | apply Hall; lia].
      * now replace (0 + (1 + r)) with (1 + r) by ring.
  - destruct (activeAgo host now transfers 1) eqn:H1.
    + destruct (walk_exact 1 m 2 1) as (r & -> & Hr & Hall & Hstop);
        try (unfold msPerDay, maxTime in *; lia).
      * intros j Hj. now replace j with 1 by lia.
      * split; [lia |]. split.
        -- intros j Hj. destruct (Z.eq_dec j 1) as [-> | Hne]; [exact H1 | apply Hall; lia].
        -- now replace (1 + (1 + r)) with (2 + r) by ring.
    + split; [lia |]. split; [intros j Hj; lia | now rewrite Z.add_0_r].
Qed.

End Exact.

End StreakFacts.

(** ** The summary *)

Module SummaryFacts.

Import JS App NumberFacts SortFacts DateFacts Reconstructor AggregatorFacts Spec.

Lemma sumValues_from (l : list Transfer) (a : Qc) :
  fold_left (fun sum tx => add sum (parseValue tx)) l (Fin a)
  = Fin (a + valueSum l).
Proof.
  revert a. induction l as [| tx l IH]; intros a; simpl.
  - unfold valueSum; simpl. f_equal. ring.
  - rewrite (finite_val _ (parseValue_finite tx)). simpl. rewrite IH.
    unfold valueSum; simpl. f_equal. ring.
Qed.

Lemma sumValues_sum (l : list Transfer) : sumValues l = Fin (valueSum l).
Proof.
  unfold sumValues. rewrite of_Z_0, sumValues_from. f_equal. ring.
Qed.

Section Summary.

Variables (tza tzl : Z -> Z) (now : Z) (userAddress : string).

(** Without self-transfers and invalid times, the three accumulators of
    the loop add up to received less sent. *)
Lemma window_settled transfers :
  Forall (fun tx => isNaN (toMs (timeStamp tx)) = false) transfers ->
  Forall (fun tx => (selfTransfer userAddress) tx = false) transfers ->
  settled (windowOf now userAddress transfers)
    (valueSum (filter (fun tx => isTo userAddress tx) transfers)
     - valueSum (filter (fun tx => isFrom userAddress tx) transfers)).
Proof.
  induction transfers as [| tx l IH] using rev_ind; intros Hv Hs.
  - exists 0%Qc, 0%Qc, 0%Qc. unfold windowOf; simpl. rewrite of_Z_0.
    repeat split; unfold valueSum; simpl; try ring.
  - apply Forall_app in Hv as [Hv Hvx]. apply Forall_app in Hs as [Hs Hsx].
    apply Forall_cons_1 in Hvx as [Hvx _]. apply Forall_cons_1 in Hsx as [Hsx _].
    destruct (IH Hv Hs) as (b & r & s & Eb & Er & Es & Esum).
    unfold windowOf in *. rewrite fold_left_app. simpl.
    set (w := fold_left _ l window0) in *.
    rewrite !valueSum_filter_snoc.
    set (R := valueSum (filter (fun tx => isTo userAddress tx) l)) in *.
    set (S := valueSum (filter (fun tx => isFrom userAddress tx) l)) in *.
    assert (ER : R = (b + (r - s) + S)%Qc) by (rewrite Esum; ring).
    clearbody R S. clear Esum.
    assert (Hpv : parseValue tx = Fin (val (parseValue tx)))
      by (apply finite_val, parseValue_finite).
    set (v := val (parseValue tx)) in *.
    unfold windowStep. rewrite Hvx, Hpv.
    unfold selfTransfer in Hsx.
    set (w' := if includes_str _ _ && _ then _ else w).
    assert (Ew : w_balanceTenDaysAgo w' = Fin b /\ w_receivedLast10Days w' = Fin r
                 /\ w_sentLast10Days w' = Fin s).
    { unfold w'. destruct (includes_str _ _ && _); simpl; auto. }
    destruct Ew as (Eb' & Er' & Es'). clearbody w'.
    destruct (isTo userAddress tx) eqn:Eto.
    { simpl in Hsx. rewrite Hsx.
      destruct (lt (toMs (timeStamp tx)) _); simpl; rewrite ?Eb', ?Er', ?Es'; simpl.
      - exists (b + v)%Qc, r, s. repeat split. rewrite ER. ring.
      - exists b, (r + v)%Qc, s. repeat split. rewrite ER. ring. }
    destruct (isFrom userAddress tx) eqn:Efrom.
    { destruct (lt (toMs (timeStamp tx)) _); simpl; rewrite ?Eb', ?Er', ?Es'; simpl.
      - exists (b + - v)%Qc, r, s. repeat split. rewrite ER. ring.
      - exists b, r, (s + v)%Qc. repeat split. rewrite ER. ring. }
    exists b, r, s. repeat split; try assumption. rewrite ER. ring.
Qed.

(** The identity between the balances, on such a collection. *)
Lemma balance_identity transfers :
  Forall (fun tx => isNaN (toMs (timeStamp tx)) = false) transfers ->
  Forall (fun tx => (selfTransfer userAddress) tx = false) transfers ->
  let s := stats (processTransactionData tza tzl now transfers userAddress) in
  currentBalance s = add (balanceTenDaysAgo s) (netChangeLast10Days s).
Proof.
  intros Hv Hs. simpl. rewrite !sumValues_sum.
  destruct (window_settled transfers Hv Hs) as (b & r & s & Eb & Er & Es & Esum).
  unfold windowOf in *. rewrite Eb, Er, Es. simpl. f_equal.
  symmetry. exact Esum.
Qed.

Lemma earlier_fold l e0 :
  Forall stamped (e0 :: l) ->
  exists e, fold_left earlier l (Some e0) = Some e /\ In e (e0 :: l)
    /\ Forall (fun tx => lt (stamp tx) (stamp e) = false) (e0 :: l).
Proof.
  revert e0. induction l as [| tx l IH]; intros e0 Hall.
  - exists e0. repeat split; [now left |]. constructor; [apply lt_irrefl | constructor].
  - apply Forall_cons_1 in Hall as [H0 Hl].
    pose proof Hl as Hl'. apply Forall_cons_1 in Hl' as [Htx Hl'].
    assert (Estep : fold_left earlier (tx :: l) (Some e0)
              = fold_left earlier l
                  (if lt (stamp tx) (stamp e0) then Some tx else Some e0))
      by reflexivity.
    rewrite Estep. clear Estep.
    destruct (lt (stamp tx) (stamp e0)) eqn:E.
    + destruct (IH tx Hl) as (e & Ef & Hin & Hmin).
      exists e. split; [exact Ef |]. split; [now right |].
      constructor; [| exact Hmin].
      apply Forall_cons_1 in Hmin as [Hmin _].
      apply (le_trans _ (stamp tx)); [exact Htx | exact Hmin | now apply lt_asym].
    + destruct (IH e0 (Forall_cons _ _ _ H0 Hl')) as (e & Ef & Hin & Hmin).
      exists e. split; [exact Ef |]. split.
      { destruct Hin as [-> | Hin]; [now left | now right; right]. }
      pose proof Hmin as Hmin'. apply Forall_cons_1 in Hmin' as [Hm0 Hml].
      constructor; [exact Hm0 |]. constructor; [| exact Hml].
      apply (le_trans _ (stamp e0)); [exact H0 | exact Hm0 | exact E].
Qed.

(** [firstTx] is a transfer of least timestamp, when every timestamp
    reads as an integer. *)
Lemma firstTx_minimal tx l :
  Forall stamped (tx :: l) ->
  exists e, firstTx (tx :: l) = Some e /\ In e (tx :: l)
    /\ Forall (fun x => lt (stamp x) (stamp e) = false) (tx :: l).
Proof. intros H. unfold firstTx. simpl. now apply earlier_fold. Qed.

(** The date shown: the least timestamp, always read as seconds. *)
Lemma walletCreatedDate_first transfers :
  walletCreatedDate (stats (processTransactionData tza tzl now transfers userAddress))
  = match firstTx transfers with
    | Some e => toLocaleDateString tza (newDate (mul (stamp e) (of_Z 1000)))
    | None => "Unknown"
    end.
Proof. reflexivity. Qed.

End Summary.

End SummaryFacts.

(** ** The proxy *)

Module ProxyFacts.

Import Http Spec.

Lemma valuesOf_removed name params :
  valuesOf name (filter (fun p => negb (String.eqb (fst p) name)) params) = [].
Proof.
  unfold valuesOf. induction params as [| [k v] rest IH]; [reflexivity |].
  rewrite filter_cons; simpl. destruct (String.eqb k name) eqn:E; simpl; [exact IH |].
  rewrite filter_cons; simpl. rewrite E. exact IH.
Qed.

(** After [set], the name has exactly one value, the one set. *)
Lemma valuesOf_set name value params :
  valuesOf name (set name value params) = [value].
Proof.
  induction params as [| [k v] rest IH]; simpl.
  - unfold valuesOf. rewrite filter_cons; simpl. now rewrite String.eqb_refl.
  - destruct (String.eqb k name) eqn:E.
    + unfold valuesOf. rewrite filter_cons; simpl. rewrite String.eqb_refl. simpl.
      f_equal. apply valuesOf_removed.
    + unfold valuesOf in *. rewrite filter_cons; simpl. now rewrite E.
Qed.

Lemma removed_same name (qs qs' : list (string * string)) :
  Forall2 (fun p q => fst p = fst q /\ (fst p <> name -> snd p = snd q)) qs qs' ->
  filter (fun p => negb (String.eqb (fst p) name)) qs
  = filter (fun p => negb (String.eqb (fst p) name)) qs'.
Proof.
  induction 1 as [| [k v] [k' v'] qs qs' [Hk Hv] _ IH]; [reflexivity |].
  simpl in *. subst k'. rewrite !filter_cons. simpl.
  destruct (String.eqb_spec k name) as [E | E]; simpl; [exact IH |].
  now rewrite (Hv E), IH.
Qed.

Lemma set_same key qs qs' :
  sameButApikey qs qs' -> set "apikey" key qs = set "apikey" key qs'.
Proof.
  induction 1 as [| [k v] [k' v'] qs qs' [Hk Hv] Hrest IH]; [reflexivity |].
  simpl in *. subst k'.
  destruct (String.eqb_spec k "apikey") as [E | E].
  - f_equal. now apply removed_same.
  - now rewrite (Hv E), IH.
Qed.

Lemma prop_same name qs qs' :
  name <> "apikey" -> sameButApikey qs qs' -> prop name qs = prop name qs'.
Proof.
  intros Hname. induction 1 as [| [k v] [k' v'] qs qs' [Hk Hv] _ IH]; [reflexivity |].
  simpl in *. subst k'.
  destruct (String.eqb_spec k name) as [E | E]; [| exact IH].
  rewrite Hv; [reflexivity | congruence].
Qed.

(** A request without [module] or without [action] is answered without a
    call upstream. *)
Lemma handler_rejects env fetch event :
  lacks "module" event \/ lacks "action" event ->
  exists response,
    Proxy.handler env fetch event = (response, [])
    /\ statusCode response
       = if falsy (ETHERSCAN_API_KEY env) then 500 else 400.
Proof.
  unfold lacks. intros Habs. unfold Proxy.handler. fold (queryOf event).
  destruct (ETHERSCAN_API_KEY env) as [[| c key] |]; simpl;
    try (eexists; split; reflexivity).
  assert (E : falsy (prop "module" (queryOf event))
              || falsy (prop "action" (queryOf event)) = true).
  { destruct Habs as [-> | ->]; [reflexivity | apply orb_true_r]. }
  rewrite E. eexists; split; reflexivity.
Qed.

(** What each handler requests, when it requests anything. *)
Lemma handler_urls env fetch event url :
  In url (snd (Proxy.handler env fetch event)) ->
  exists key,
    ETHERSCAN_API_KEY env = Some key /\ key <> ""
    /\ url = Proxy.targetUrl key env (queryOf event)
    /\ snd (Proxy.handler env fetch event) = [url].
Proof.
  unfold Proxy.handler. fold (queryOf event).
  destruct (ETHERSCAN_API_KEY env) as [[| c key] |]; simpl; try tauto.
  destruct (falsy _ || falsy _); simpl; [tauto |].
  unfold forward. intros H.
  exists (String c key). split; [reflexivity |]. split; [discriminate |].
  destruct (fetch _); simpl in *; destruct H as [<- | []]; split; reflexivity.
Qed.

Lemma handlerCopy_urls env fetch event url :
  In url (snd (ProxyCopy.handler env fetch event)) ->
  exists key,
    ETHERSCAN_API_KEY env = Some key /\ key <> ""
    /\ url = ProxyCopy.targetUrl key (queryOf event)
    /\ snd (ProxyCopy.handler env fetch event) = [url].
Proof.
  unfold ProxyCopy.handler. fold (queryOf event).
  destruct (ETHERSCAN_API_KEY env) as [[| c key] |]; simpl; try tauto.
  unfold forward. intros H.
  exists (String c key). split; [reflexivity |]. split; [discriminate |].
  destruct (fetch _); simpl in *; destruct H as [<- | []]; split; reflexivity.
Qed.

(** The client's [apikey] has no influence on either handler. *)
Lemma handler_same env fetch e e' :
  sameRequest e e' -> Proxy.handler env fetch e = Proxy.handler env fetch e'.
Proof.
  unfold sameRequest, Proxy.handler, Proxy.targetUrl.
  destruct (queryStringParameters e) as [qs |], (queryStringParameters e') as [qs' |];
    try tauto.
  intros H.
  rewrite (prop_same "module" qs qs') by (congruence || assumption).
  rewrite (prop_same "action" qs qs') by (congruence || assumption).
  destruct (ETHERSCAN_API_KEY env) as [[| c key] |]; try reflexivity.
  now rewrite (set_same _ qs qs').
Qed.

Lemma handlerCopy_same env fetch e e' :
  sameRequest e e' -> ProxyCopy.handler env fetch e = ProxyCopy.handler env fetch e'.
Proof.
  unfold sameRequest, ProxyCopy.handler, ProxyCopy.targetUrl.
  destruct (queryStringParameters e) as [qs |], (queryStringParameters e') as [qs' |];
    try tauto.
  intros H.
  destruct (ETHERSCAN_API_KEY env) as [[| c key] |]; try reflexivity.
  now rewrite (set_same _ qs qs').
Qed.

End ProxyFacts.

(** * The claims *)

Module Claims.

Import JS App Http Spec Samples.
Import NumberFacts SortFacts DateFacts Reconstructor ChartFacts AggregatorFacts
  StreakFacts SummaryFacts ProxyFacts.




(** Claim C2, at an input where the code departs from it: a host in New
    York at 23:30 on 5 November 2023, the day the clocks went back, and one
    transfer received that morning.  The ten instants [now - i * 24h] fall
    on nine calendar days only: 5 November comes twice, the transfer of
    that day is counted in two buckets, and 27 October, the day nine days
    before today, has no bucket. *)
Theorem daily_buckets_clock_change :
  let result := groupTransactionsByDay newYork autumnNight [receivedNov5] subject in
  map (fun b => (day b, fraction (received b))) result
  = [("10/28", Some 0); ("10/29", Some 0); ("10/30", Some 0); ("10/31", Some 0);
     ("11/1", Some 0); ("11/2", Some 0); ("11/3", Some 0); ("11/4", Some 0);
     ("11/5", Some 1); ("11/5", Some 1)]%Q
  /\ mdLabel (civil_from_days (localDay newYork autumnNight)) = "11/5"
  /\ mdLabel (civil_from_days (localDay newYork autumnNight - 9)) = "10/27"
  /\ ~ In "10/27" (map day result).
Proof.
  repeat split; try (vm_compute; reflexivity).
  vm_compute. intros H.
  repeat (destruct H as [H | H]; [discriminate H |]). exact H.
Qed.

(** Claim C3.  In the balance reconstruction the timestamps are sorted in
    ascending order and, for every query time [t], [sumDeltasAfter] (the
    binary search followed by the look-up in the suffix sums) is the sum of
    the signed amounts of the transfers with a valid timestamp later than
    [t]; it is 0 when there is no such transfer. *)
Theorem sumDeltasAfter_is_sum_after (rawTransfers : list Transfer)
    (userAddress : string) (t : number) :
  let e := enriched rawTransfers userAddress in
  let times := map timeMs e in
  let suffixSum := suffixSums (map delta e) in
  StronglySorted (fun a b => lt b a = false) times
  /\ sumDeltasAfter times suffixSum t = Fin (deltaSumAfter rawTransfers userAddress t)
  /\ (Forall (fun tx => isAfter t tx = false) rawTransfers ->
      sumDeltasAfter times suffixSum t = of_Z 0).
Proof.
  intros e times suffixSum. split; [| split].
  - subst times e. unfold enriched.
    set (valid := filter _ (map _ rawTransfers)).
    assert (Hk : Forall (keyed timeMs) valid).
    { apply Forall_forall. intros x Hx.
      apply list_elem_of_In, list_elem_of_filter in Hx as [Hx _].
      unfold keyed. now destruct (isNaN (timeMs x)). }
    apply sorted_keys. exact (sort_sorted timeMs valid Hk).
  - apply sumDeltasAfter_correct.
  - intros Hnone. subst times suffixSum e. rewrite sumDeltasAfter_correct.
    rewrite deltaSumAfter_none by assumption. symmetry. apply of_Z_0.
Qed.

Lemma sumDeltasAfter_is_sum_after_witness :
  let e := enriched [received100; sent40] subject in
  sumDeltasAfter (map timeMs e) (suffixSums (map delta e)) (of_Z clock) = of_Z 0.
Proof.
  apply (proj2 (proj2
    (sumDeltasAfter_is_sum_after [received100; sent40] subject (of_Z clock)))).
  repeat constructor.
Defined.

(** Claim C4, at the input where the code departs from it: a transfer of 5
    units of a token whose [tokenDecimal] is ["0"].  The field is present
    and parses, to 0; the code still falls back to 18 decimals and returns
    [5 / 10^18] instead of 5. *)
Theorem parseValue_zero_decimals :
  parseInt "0" (Some 10) = Some 0
  /\ decimalsOf wholeUnits = 18
  /\ eqb (rawOf wholeUnits) (of_Z 5) = true
  /\ eqb (parseValue wholeUnits) (Fin (Qc_of_Z 5 / pow10 18)%Qc) = true
  /\ eqb (parseValue wholeUnits) (of_Z 5) = false.
Proof. repeat split; vm_compute; reflexivity. Qed.

(** Claim C5, at inputs where the code departs from it: a host in New
    York at 0:30 on 11 March 2024, the day after the clocks went forward.
    The instant 24 hours before is at 23:30 on 9 March, so the look at
    "yesterday" is a look at 9 March.  A single transfer on 10 March
    (yesterday, with none today) has streak 0, not 1; and a single transfer
    on 9 March (none today, none yesterday) has streak 1, not 0. *)
Theorem streak_grace_clock_change :
  civil_from_days (localDay newYork springNight) = (2024, 3, 11)
  /\ civil_from_days (localDay newYork (springNight - msPerDay)) = (2024, 3, 9)
  /\ (newDate (toMs (timeStamp receivedMar10)) = Some 1710082800000
      /\ civil_from_days (localDay newYork 1710082800000) = (2024, 3, 10)
      /\ calculateActiveStreak newYork newYorkLocal springNight [receivedMar10] = 0)
  /\ (newDate (toMs (timeStamp receivedMar9)) = Some 1709996400000
      /\ civil_from_days (localDay newYork 1709996400000) = (2024, 3, 9)
      /\ calculateActiveStreak newYork newYorkLocal springNight [receivedMar9] = 1).
Proof. repeat split; vm_compute; reflexivity. Qed.

(** Claim C6.  On every host and at every valid clock, adding to a
    transfer collection, at any position, one transfer whose timestamp
    falls on today's calendar day does not decrease the streak.  Of the
    host it takes what local time gives: midnight of today is an instant of
    today, and the same for the day of the instant 24 hours before now. *)
Theorem streak_monotone_today (tza tzl : Z -> Z) (now : Z)
    (before after : list Transfer) (tx : Transfer) (t : Z) :
  validNow now ->
  midnightInDay tza tzl (Some now) ->
  midnightInDay tza tzl (Some (now - msPerDay)) ->
  newDate (toMs (timeStamp tx)) = Some t ->
  localDay tza t = localDay tza now ->
  calculateActiveStreak tza tzl now (before ++ after)
  <= calculateActiveStreak tza tzl now (before ++ tx :: after).
Proof.
  intros Hnow Hm0 Hm1 Ht Hday. apply streak_mono; try assumption.
  - unfold validTime. destruct (toMs (timeStamp tx)); [discriminate | | |]; reflexivity.
  - unfold dayKeyOf. now rewrite Ht, !ymdKey_Some, Hday.
Qed.

Lemma streak_monotone_today_witness :
  calculateActiveStreak newYork newYorkLocal springNight ([receivedMar9] ++ [])
  <= calculateActiveStreak newYork newYorkLocal springNight
       ([receivedMar9] ++ receivedMar11 :: []).
Proof.
  apply (streak_monotone_today newYork newYorkLocal springNight [receivedMar9] []
           receivedMar11 1710130200000).
  - unfold validNow, springNight, maxTime, msPerDay. lia.
  - vm_compute. reflexivity.
  - vm_compute. reflexivity.
  - vm_compute. reflexivity.
  - vm_compute. reflexivity.
Defined.

(** Claim C7, at the input where the code departs from it: a single
    transfer whose timestamp is in milliseconds.  Read with the
    seconds-or-milliseconds heuristic the transfer is of 14 November 2023;
    the summary reads the timestamp as seconds and shows a date in the year
    55840. *)
Theorem walletCreatedDate_reads_seconds :
  walletCreatedDate (stats (processTransactionData utc utc clock [inMilliseconds] subject))
  = "11/8/55840"
  /\ toLocaleDateString utc (newDate (toMs (timeStamp inMilliseconds))) = "11/14/2023".
Proof. split; vm_compute; reflexivity. Qed.

(** Claim C8, as amended.  For every request that lacks [module] or lacks
    [action] (the parameter is absent, or empty), the handler of
    [netlify/functions/etherscan-proxy.js] requests nothing upstream; it
    answers 400 when the server credential is configured and 500 when it
    is not. *)
Theorem proxy_rejects_missing_parameters (env : Env) (fetch : string -> FetchResult)
    (event : Event) :
  lacks "module" event \/ lacks "action" event ->
  exists response,
    Proxy.handler env fetch event = (response, [])
    /\ statusCode response = if falsy (ETHERSCAN_API_KEY env) then 500 else 400.
Proof. apply handler_rejects. Qed.

Lemma proxy_rejects_missing_parameters_witness :
  exists response,
    Proxy.handler configured upstream (request [("action", "tokentx")]) = (response, [])
    /\ statusCode response = 400.
Proof.
  apply (proxy_rejects_missing_parameters configured upstream
           (request [("action", "tokentx")])).
  left. reflexivity.
Defined.

Lemma proxy_missing_credential_first :
  statusCode (fst (Proxy.handler unconfigured upstream (request [("action", "tokentx")])))
  = 500
  /\ statusCode (fst (Proxy.handler unconfigured upstream (request [("action", "tokentx")])))
     <> 400.
Proof. split; [reflexivity | discriminate]. Qed.

(** Claim C9, at the input where the code departs from it: one transfer
    from the subject to itself, with a valid timestamp.  The current balance
    is 0, while the balance ten days ago plus the net change of the last ten
    days is 1. *)
Theorem self_transfer_breaks_balance_identity :
  let s := stats (processTransactionData utc utc clock [sentToSelf] subject) in
  eqb (currentBalance s) (of_Z 0) = true
  /\ eqb (add (balanceTenDaysAgo s) (netChangeLast10Days s)) (of_Z 1) = true
  /\ eqb (currentBalance s) (add (balanceTenDaysAgo s) (netChangeLast10Days s)) = false.
Proof. repeat split; vm_compute; reflexivity. Qed.

(** Claim C10.  Every URL either handler requests is the base URL followed
    by the rendering of the request's parameters after [apikey] has been set
    to the server's credential, which leaves the credential as the only
    value of [apikey]; and two requests that differ only in the value of
    [apikey] get the same response and the same upstream requests. *)
Theorem proxy_apikey_overwritten (env : Env) (fetch : string -> FetchResult)
    (event event' : Event) :
  (forall url, In url (snd (Proxy.handler env fetch event)) ->
     exists key params,
       ETHERSCAN_API_KEY env = Some key
       /\ params = set "apikey" key (queryOf event)
       /\ url = or_str (ETHERSCAN_V2_BASE env) "https://api.etherscan.io/v2/api"
                  +:+ "?" +:+ toString params
       /\ valuesOf "apikey" params = [key])
  /\ (forall url, In url (snd (ProxyCopy.handler env fetch event)) ->
     exists key params,
       ETHERSCAN_API_KEY env = Some key
       /\ params = set "apikey" key (queryOf event)
       /\ url = "https://api.etherscan.io/v2/api?" +:+ toString params
       /\ valuesOf "apikey" params = [key])
  /\ (sameRequest event event' ->
      Proxy.handler env fetch event = Proxy.handler env fetch event'
      /\ ProxyCopy.handler env fetch event = ProxyCopy.handler env fetch event').
Proof.
  split; [| split].
  - intros url Hurl. apply handler_urls in Hurl as (key & Hkey & _ & -> & _).
    exists key, (set "apikey" key (queryOf event)).
    split; [assumption |]. split; [reflexivity |]. split; [| apply valuesOf_set].
    unfold Proxy.targetUrl, or_str. now destruct (ETHERSCAN_V2_BASE env) as [[|] |].
  - intros url Hurl. apply handlerCopy_urls in Hurl as (key & Hkey & _ & -> & _).
    exists key, (set "apikey" key (queryOf event)).
    split; [assumption |]. split; [reflexivity |]. split; [reflexivity | apply valuesOf_set].
  - intros Hsame. split; [now apply handler_same | now apply handlerCopy_same].
Qed.

Lemma proxy_apikey_overwritten_witness :
  snd (Proxy.handler configured upstream
         (request [("module", "account"); ("apikey", "CLIENT"); ("action", "tokentx")]))
  = ["https://api.etherscan.io/v2/api?module=account&apikey=SERVERKEY&action=tokentx"]
  /\ Proxy.handler configured upstream
       (request [("module", "account"); ("apikey", "CLIENT"); ("action", "tokentx")])
     = Proxy.handler configured upstream
         (request [("module", "account"); ("apikey", "OTHER"); ("action", "tokentx")]).
Proof.
  pose proof (proxy_apikey_overwritten configured upstream
    (request [("module", "account"); ("apikey", "CLIENT"); ("action", "tokentx")])
    (request [("module", "account"); ("apikey", "OTHER"); ("action", "tokentx")]))
    as (Hurl & _ & Hsame).
  split.
  - destruct (Hurl
      "https://api.etherscan.io/v2/api?module=account&apikey=SERVERKEY&action=tokentx"
      (or_introl eq_refl)) as (key & params & _ & _ & _ & _).
    reflexivity.
  - apply Hsame. repeat constructor; simpl; congruence.
Defined.

End Claims.
